(** * IAPWS-08 seawater formulation: a shallow embedding of [iapws08.py]

    The module [iapws/iapws08.py] evaluates the Gibbs function of seawater
    and its partial derivatives as the sum of a pure-water part and a saline
    part, and derives the thermodynamic properties from them.

    Modelling conventions.
    - Python floats are idealised as real numbers ([R]); rounding, overflow
      and the non-finite values of IEEE arithmetic are outside the model.
      Python integers that take part in float arithmetic (exponents used as
      factors, the literal [0]) are injected with [INR] or written as reals.
    - Exceptions are values: every operation that can raise in Python
      returns a [result].  Division by a literal non-zero constant cannot
      raise and is written with the plain [/].
    - A Python [dict] with string keys is a [gmap string _]; the attribute
      dictionary of an instance is a [gmap string pyval]. *)

From Stdlib Require Import Reals Lra Lia.
From stdpp Require Import gmap strings list fin_maps.

Open Scope R_scope.

(** ** Exceptions and the error monad *)

Inductive exn : Type :=
  | ZeroDivisionError
  | ValueError
  | TypeError
  | KeyError
  | AttributeError
  | ExternalError (code : nat).

Inductive result (A : Type) : Type :=
  | Ok (a : A)
  | Raise (e : exn).
Arguments Ok {A} a.
Arguments Raise {A} e.

(** [result] is a monad; the notations [x ← m; k] and [m ≫= k] are
    stdpp's. *)
#[global] Instance result_ret : MRet result := fun A a => Ok a.
#[global] Instance result_bind : MBind result := fun A B k m =>
  match m with
  | Ok a => k a
  | Raise e => Raise e
  end.

(** ** Python arithmetic that can raise *)

(** [a / b] on floats: [ZeroDivisionError] when [b] is zero. *)
Definition pydiv (a b : R) : result R :=
  if Req_dec_T b 0 then Raise ZeroDivisionError else Ok (a / b).

(** [math.log(x)]: [ValueError] (math domain error) unless [0 < x]. *)
Definition pylog (x : R) : result R :=
  if Rlt_dec 0 x then Ok (ln x) else Raise ValueError.

(** [x ** 0.5].  For a negative base Python 2 raises [ValueError]; Python 3
    returns a complex number, which is outside the real-valued model and
    which [math.log] rejects.  Both are reported as [ValueError]. *)
Definition pysqrt (x : R) : result R :=
  if Rle_dec 0 x then Ok (sqrt x) else Raise ValueError.

(** [x ** n] for an integer exponent computed as a difference [a - b] of
    two non-negative integers: a negative exponent on a zero base raises
    [ZeroDivisionError]. *)
Definition pypow_sub (x : R) (a b : nat) : result R :=
  if (b <=? a)%nat then Ok (x ^ (a - b))
  else if Req_dec_T x 0 then Raise ZeroDivisionError
  else Ok (/ x ^ (b - a)).

(** ** Constants (module level) *)

Definition Rm : R := 8.314472.
Definition Sn : R := 0.03516504.
Definition S_ : R := Sn * 40 / 35.
Definition Ms : R := 31.4038218.
Definition T_ : R := 40.
Definition P_ : R := 100.
Definition Po : R := 0.101325.
Definition To : R := 273.15.

(** ** Derivative sets *)

(** [zip(J, K, G)] and [zip(I, J, K, G)]: truncation at the shortest list. *)
Fixpoint zip3 {A B C : Type} (la : list A) (lb : list B) (lc : list C)
  : list (A * B * C) :=
  match la, lb, lc with
  | a :: la', b :: lb', c :: lc' => (a, b, c) :: zip3 la' lb' lc'
  | _, _, _ => []
  end.

Fixpoint zip4 {A B C D : Type} (la : list A) (lb : list B) (lc : list C)
  (ld : list D) : list (A * B * C * D) :=
  match la, lb, lc, ld with
  | a :: la', b :: lb', c :: lc', d :: ld' =>
      (a, b, c, d) :: zip4 la' lb' lc' ld'
  | _, _, _, _ => []
  end.

(** A [for] loop whose body can raise: the first exception ends the loop. *)
Fixpoint for_each {A E : Type} (body : A -> E -> result A) (l : list E)
  (a : A) : result A :=
  match l with
  | [] => Ok a
  | e :: l' => a' ← body a e; for_each body l' a'
  end.

(** ** Pure water, supplementary release SR7-09: [SeaWater._waterSupp] *)

Module WaterSupp.

Definition J : list nat :=
  [0; 0; 0; 0; 0; 0; 0; 1; 1; 1; 1; 1; 1; 2; 2; 2; 2; 2; 2; 3; 3; 3; 3; 3;
   3; 4; 4; 4; 4; 4; 5; 5; 5; 5; 5; 6; 6; 6; 6; 7; 7]%nat.
Definition K : list nat :=
  [0; 1; 2; 3; 4; 5; 6; 0; 1; 2; 3; 4; 5; 0; 1; 2; 3; 4; 5; 0; 1; 2; 3; 4;
   5; 0; 1; 2; 3; 4; 0; 1; 2; 3; 4; 0; 1; 2; 3; 0; 1]%nat.
Definition G : list R :=
  [0.101342743139674e3; 0.100015695367145e6; (-0.254457654203630e4);
   0.284517778446287e3; (-0.333146754253611e2); 0.420263108803084e1;
   (-0.546428511471039); 0.590578347909402e1; (-0.270983805184062e3);
   0.776153611613101e3; (-0.196512550881220e3); 0.289796526294175e2;
   (-0.213290083518327e1); (-0.123577859330390e5); 0.145503645404680e4;
   (-0.756558385769359e3); 0.273479662323528e3; (-0.555604063817218e2);
   0.434420671917197e1; 0.736741204151612e3; (-0.672507783145070e3);
   0.499360390819152e3; (-0.239545330654412e3); 0.488012518593872e2;
   (-0.166307106208905e1); (-0.148185936433658e3); 0.397968445406972e3;
   (-0.301815380621876e3); 0.152196371733841e3; (-0.263748377232802e2);
   0.580259125842571e2; (-0.194618310617595e3); 0.120520654902025e3;
   (-0.552723052340152e2); 0.648190668077221e1; (-0.189843846514172e2);
   0.635113936641785e2; (-0.222897317140459e2); 0.817060541818112e1;
   0.305081646487967e1; (-0.963108119393062e1)]%R.

(** The six accumulators [g, gt, gp, gtt, gtp, gpp] of the loop. *)
Record acc : Type := Acc
  { g : R; gt : R; gp : R; gtt : R; gtp : R; gpp : R }.

Definition acc0 : acc := Acc 0 0 0 0 0 0.

(** One iteration of [for j, k, gi in zip(J, K, G)]. *)
Definition body (tau pi : R) (a : acc) (e : nat * nat * R) : acc :=
  let '(j, k, gi) := e in
  {| g := g a + gi * tau ^ j * pi ^ k;
     gt := if (1 <=? j)%nat
           then gt a + gi * INR j * tau ^ (j - 1) * pi ^ k
           else gt a;
     gp := if (1 <=? k)%nat
           then gp a + INR k * gi * tau ^ j * pi ^ (k - 1)
           else gp a;
     gtt := if (2 <=? j)%nat
            then gtt a + INR (j * (j - 1)) * gi * tau ^ (j - 2) * pi ^ k
            else gtt a;
     gtp := if (1 <=? j)%nat && (1 <=? k)%nat
            then gtp a + INR (j * k) * gi * tau ^ (j - 1) * pi ^ (k - 1)
            else gtp a;
     gpp := if (2 <=? k)%nat
            then gpp a + INR (k * (k - 1)) * gi * tau ^ j * pi ^ (k - 2)
            else gpp a |}.

Definition tau (T : R) : R := (T - 273.15) / 40.
Definition pi (P : R) : R := (P - 0.101325) / 100.

(** The accumulators after the loop. *)
Definition sums (T P : R) : acc :=
  fold_left (body (tau T) (pi P)) (zip3 J K G) acc0.

End WaterSupp.

Definition _waterSupp (T P : R) : gmap string R :=
  let a := WaterSupp.sums T P in
  let prop : gmap string R := ∅ in
  let prop := <["g" := WaterSupp.g a * 1e-3]> prop in
  let prop := <["gt" := WaterSupp.gt a / 40 * 1e-3]> prop in
  let prop := <["gp" := WaterSupp.gp a / 100 * 1e-6]> prop in
  let prop := <["gtt" := WaterSupp.gtt a / 40 ^ 2 * 1e-3]> prop in
  let prop := <["gtp" := WaterSupp.gtp a / 40 / 100 * 1e-6]> prop in
  let prop := <["gpp" := WaterSupp.gpp a / 100 ^ 2 * 1e-6]> prop in
  let prop := <["gs" := 0]> prop in
  let prop := <["gsp" := 0]> prop in
  prop.

(** ** Saline part, Eq. 4: [SeaWater._saline] *)

Module Saline.

Definition I : list nat :=
  [1; 2; 3; 4; 5; 6; 7; 1; 2; 3; 4; 5; 6; 2; 3; 4; 2; 3; 4; 2; 3; 4; 2; 4;
   2; 2; 3; 4; 5; 2; 3; 4; 2; 3; 2; 3; 2; 3; 2; 3; 4; 2; 3; 2; 3; 2; 2; 2;
   3; 4; 2; 3; 2; 3; 2; 2; 2; 3; 2; 2; 2; 2; 2; 2]%nat.
Definition J : list nat :=
  [0; 0; 0; 0; 0; 0; 0; 1; 1; 1; 1; 1; 1; 2; 2; 2; 3; 3; 3; 4; 4; 4; 5; 5;
   6; 0; 0; 0; 0; 1; 1; 1; 2; 2; 3; 3; 4; 4; 0; 0; 0; 1; 1; 2; 2; 3; 4; 0;
   0; 0; 1; 1; 2; 2; 3; 4; 0; 0; 1; 2; 3; 0; 1; 2]%nat.
Definition K : list nat :=
  [0; 0; 0; 0; 0; 0; 0; 0; 0; 0; 0; 0; 0; 0; 0; 0; 0; 0; 0; 0; 0; 0; 0; 0;
   0; 1; 1; 1; 1; 1; 1; 1; 1; 1; 1; 1; 1; 1; 2; 2; 2; 2; 2; 2; 2; 2; 2; 3;
   3; 3; 3; 3; 3; 3; 3; 3; 4; 4; 4; 4; 4; 5; 5; 5]%nat.
Definition G : list R :=
  [0.581281456626732e4; 0.141627648484197e4; (-0.243214662381794e4);
   0.202580115603697e4; (-0.109166841042967e4); 0.374601237877840e3;
   (-0.485891069025409e2); 0.851226734946706e3; 0.168072408311545e3;
   (-0.493407510141682e3); 0.543835333000098e3; (-0.196028306689776e3);
   0.367571622995805e2; 0.880031352997204e3; (-0.430664675978042e2);
   (-0.685572509204491e2); (-0.225267649263401e3); (-0.100227370861875e2);
   0.493667694856254e2; 0.914260447751259e2; 0.875600661808945;
   (-0.171397577419788e2); (-0.216603240875311e2); 0.249697009569508e1;
   0.213016970847183e1; (-0.331049154044839e4); 0.199459603073901e3;
   (-0.547919133532887e2); 0.360284195611086e2; 0.729116529735046e3;
   (-0.175292041186547e3); (-0.226683558512829e2); (-0.860764303783977e3);
   0.383058066002476e3; 0.694244814133268e3; (-0.460319931801257e3);
   (-0.297728741987187e3); 0.234565187611355e3; 0.384794152978599e3;
   (-0.522940909281335e2); (-0.408193978912261e1); (-0.343956902961561e3);
   0.831923927801819e2; 0.337409530269367e3; (-0.541917262517112e2);
   (-0.204889641964903e3); 0.747261411387560e2; (-0.965324320107458e2);
   0.680444942726459e2; (-0.301755111971161e2); 0.124687671116248e3;
   (-0.294830643494290e2); (-0.178314556207638e3); 0.256398487389914e2;
   0.113561697840594e3; (-0.364872919001588e2); 0.158408172766824e2;
   (-0.341251932441282e1); (-0.316569643860730e2); 0.442040358308000e2;
   (-0.111282734326413e2); (-0.262480156590992e1); 0.704658803315449e1;
   (-0.792001547211682e1)]%R.

(** The eight accumulators [g, gt, gp, gtt, gtp, gpp, gs, gsp]. *)
Record acc : Type := Acc
  { g : R; gt : R; gp : R; gtt : R; gtp : R; gpp : R; gs : R; gsp : R }.

Definition acc0 : acc := Acc 0 0 0 0 0 0 0 0.

Definition add_g (a : acc) (x : R) : acc :=
  Acc (g a + x) (gt a) (gp a) (gtt a) (gtp a) (gpp a) (gs a) (gsp a).
Definition add_gt (a : acc) (x : R) : acc :=
  Acc (g a) (gt a + x) (gp a) (gtt a) (gtp a) (gpp a) (gs a) (gsp a).
Definition add_gp (a : acc) (x : R) : acc :=
  Acc (g a) (gt a) (gp a + x) (gtt a) (gtp a) (gpp a) (gs a) (gsp a).
Definition add_gtt (a : acc) (x : R) : acc :=
  Acc (g a) (gt a) (gp a) (gtt a + x) (gtp a) (gpp a) (gs a) (gsp a).
Definition add_gtp (a : acc) (x : R) : acc :=
  Acc (g a) (gt a) (gp a) (gtt a) (gtp a + x) (gpp a) (gs a) (gsp a).
Definition add_gpp (a : acc) (x : R) : acc :=
  Acc (g a) (gt a) (gp a) (gtt a) (gtp a) (gpp a + x) (gs a) (gsp a).
Definition add_gs (a : acc) (x : R) : acc :=
  Acc (g a) (gt a) (gp a) (gtt a) (gtp a) (gpp a) (gs a + x) (gsp a).
Definition add_gsp (a : acc) (x : R) : acc :=
  Acc (g a) (gt a) (gp a) (gtt a) (gtp a) (gpp a) (gs a) (gsp a + x).

(** The statements of one iteration of
    [for i, j, k, gi in zip(I, J, K, G)], in source order. *)

(** [if i == 1: g += ...; gs += ... else: g += ...; gs += ...] *)
Definition step_g_gs (X tau pi : R) (i j k : nat) (gi : R) (a : acc)
  : result acc :=
  if (i =? 1)%nat then
    l ← pylog X;
    let a := add_g a (gi * X ^ 2 * l * tau ^ j * pi ^ k) in
    l ← pylog X;
    Ok (add_gs a (gi * (2 * l + 1) * tau ^ j * pi ^ k))
  else
    let a := add_g a (gi * X ^ i * tau ^ j * pi ^ k) in
    p ← pypow_sub X i 2;
    Ok (add_gs a (INR i * gi * p * tau ^ j * pi ^ k)).

(** [if j >= 1: if i == 1: gt += ... else: gt += ...] *)
Definition step_gt (X tau pi : R) (i j k : nat) (gi : R) (a : acc)
  : result acc :=
  if (1 <=? j)%nat then
    if (i =? 1)%nat then
      l ← pylog X;
      Ok (add_gt a (gi * X ^ 2 * l * INR j * tau ^ (j - 1) * pi ^ k))
    else
      Ok (add_gt a (gi * X ^ i * INR j * tau ^ (j - 1) * pi ^ k))
  else Ok a.

(** [if k >= 1: gp += ...; gsp += ...] *)
Definition step_gp_gsp (X tau pi : R) (i j k : nat) (gi : R) (a : acc)
  : result acc :=
  if (1 <=? k)%nat then
    let a := add_gp a (INR k * gi * X ^ i * tau ^ j * pi ^ (k - 1)) in
    p ← pypow_sub X i 2;
    Ok (add_gsp a (INR (i * k) * gi * p * tau ^ j * pi ^ (k - 1)))
  else Ok a.

(** [if j >= 2: gtt += ...] *)
Definition step_gtt (X tau pi : R) (i j k : nat) (gi : R) (a : acc) : acc :=
  if (2 <=? j)%nat
  then add_gtt a (INR (j * (j - 1)) * gi * X ^ i * tau ^ (j - 2) * pi ^ k)
  else a.

(** [if j >= 1 and k >= 1: gtp += ...] *)
Definition step_gtp (X tau pi : R) (i j k : nat) (gi : R) (a : acc) : acc :=
  if (1 <=? j)%nat && (1 <=? k)%nat
  then add_gtp a (INR (j * k) * gi * X ^ i * tau ^ (j - 1) * pi ^ (k - 1))
  else a.

(** [if k >= 2: gpp += ...] *)
Definition step_gpp (X tau pi : R) (i j k : nat) (gi : R) (a : acc) : acc :=
  if (2 <=? k)%nat
  then add_gpp a (INR (k * (k - 1)) * gi * X ^ i * tau ^ j * pi ^ (k - 2))
  else a.

Definition body (X tau pi : R) (a : acc) (e : nat * nat * nat * R)
  : result acc :=
  let '(i, j, k, gi) := e in
  a ← step_g_gs X tau pi i j k gi a;
  a ← step_gt X tau pi i j k gi a;
  a ← step_gp_gsp X tau pi i j k gi a;
  let a := step_gtt X tau pi i j k gi a in
  let a := step_gtp X tau pi i j k gi a in
  let a := step_gpp X tau pi i j k gi a in
  Ok a.

Definition S_ : R := 0.03516504 * 40 / 35.
Definition X (S : R) : result R := pysqrt (S / S_).
Definition tau (T : R) : R := (T - 273.15) / 40.
Definition pi (P : R) : R := (P - 0.101325) / 100.

(** The whole loop over the table. *)
Definition loop (X tau pi : R) : result acc :=
  for_each (body X tau pi) (zip4 I J K G) acc0.

(** The accumulators when the normalisation starts:
    [g, ..., gsp = 0, ..., 0] and [if S != 0: for ...]. *)
Definition sums (T P S : R) : result acc :=
  x ← X S;
  if Req_dec_T S 0 then Ok acc0 else loop x (tau T) (pi P).

(** [prop = {}; prop["g"] = g*1e-3; ...; return prop] *)
Definition normalise (a : acc) : gmap string R :=
  let prop : gmap string R := ∅ in
  let prop := <["g" := g a * 1e-3]> prop in
  let prop := <["gt" := gt a / 40 * 1e-3]> prop in
  let prop := <["gp" := gp a / 100 * 1e-6]> prop in
  let prop := <["gtt" := gtt a / 40 ^ 2 * 1e-3]> prop in
  let prop := <["gtp" := gtp a / 40 / 100 * 1e-6]> prop in
  let prop := <["gpp" := gpp a / 100 ^ 2 * 1e-6]> prop in
  let prop := <["gs" := gs a / S_ / 2 * 1e-3]> prop in
  let prop := <["gsp" := gsp a / S_ / 2 / 100 * 1e-6]> prop in
  prop.

End Saline.

Definition _saline (T P S : R) : result (gmap string R) :=
  a ← Saline.sums T P S;
  Ok (Saline.normalise a).

(** ** Pure water from IAPWS-95: [SeaWater._water] *)

(** The attributes of an [IAPWS95] state that [_water] reads. *)
Module Water.
Record t : Type := Make
  { h : R; s : R; rho : R; cp : R; betas : R; w : R }.
End Water.

(** [d[key]] on a dictionary of floats. *)
Definition getitem (d : gmap string R) (key : string) : result R :=
  match d !! key with
  | Some v => Ok v
  | None => Raise KeyError
  end.

(** ** The [SeaWater] object *)

(** Python values held by data attributes. *)
Inductive pyval : Type :=
  | VNone
  | VNum (x : R)
  | VStr (s : string).

(** The dictionary [kwargs]; its keys are fixed by the class attribute
    [SeaWater.kwargs].  [None] stands for Python's [None]. *)
Record kwargs_t : Type := Kwargs
  { kw_T : option R; kw_P : option R; kw_S : option R; kw_fast : bool }.

(** The keyword arguments of one call: [None] when the key is not given. *)
Record kwargs_upd : Type := Upd
  { upd_T : option (option R); upd_P : option (option R);
    upd_S : option (option R); upd_fast : option bool }.

(** [dict.update] *)
Definition update (kw : kwargs_t) (u : kwargs_upd) : kwargs_t :=
  {| kw_T := default (kw_T kw) (upd_T u);
     kw_P := default (kw_P kw) (upd_P u);
     kw_S := default (kw_S kw) (upd_S u);
     kw_fast := default (kw_fast kw) (upd_fast u) |}.

(** An instance: its [kwargs] and the rest of its attribute dictionary. *)
Record SeaWater : Type := Instance_
  { kwargs : kwargs_t; attrs : gmap string pyval }.

(** Class attributes [kwargs], [status] and [msg]. *)
Definition SeaWater_kwargs : kwargs_t :=
  {| kw_T := Some 0; kw_P := Some 0; kw_S := None; kw_fast := false |}.

Definition SeaWater_attrs : gmap string pyval :=
  <["msg" := VStr "Undefined"]> (<["status" := VNum 0]> ∅).

(** Attribute access: the instance dictionary first, then the class. *)
Definition getattr (self : SeaWater) (name : string) : result pyval :=
  match attrs self !! name with
  | Some v => Ok v
  | None =>
      match SeaWater_attrs !! name with
      | Some v => Ok v
      | None => Raise AttributeError
      end
  end.

Definition setattr (self : SeaWater) (name : string) (v : pyval) : SeaWater :=
  {| kwargs := kwargs self; attrs := <[name := v]> (attrs self) |}.

(** Truth value of a float or [None]. *)
Definition truth (v : option R) : bool :=
  match v with
  | Some x => if Req_dec_T x 0 then false else true
  | None => false
  end.

(** The value as an operand of float arithmetic. *)
Definition num (v : option R) : result R :=
  match v with
  | Some x => Ok x
  | None => Raise TypeError
  end.

(** [x <= y] on floats. *)
Definition py_le (x y : R) : bool := if Rle_dec x y then true else false.

Section SeaWater.

(** The constructor [IAPWS95(P=P, T=T)] of the module [iapws95], which is
    outside this file: any function from temperature and pressure to a
    state or an exception. *)
Variable IAPWS95 : R -> R -> result Water.t.

Definition _water (T P : R) : result (gmap string R) :=
  water ← IAPWS95 T P;
  let prop : gmap string R := ∅ in
  let prop := <["g" := Water.h water - T * Water.s water]> prop in
  let prop := <["gt" := - Water.s water]> prop in
  gp ← pydiv 1 (Water.rho water);
  let prop := <["gp" := gp]> prop in
  gtt ← pydiv (- Water.cp water) T;
  let prop := <["gtt" := gtt]> prop in
  gtp ← pydiv (Water.betas water * Water.cp water) T;
  let prop := <["gtp" := gtp]> prop in
  a ← pydiv (- 1e6) ((Water.rho water * Water.w water) ^ 2);
  b ← pydiv (Water.betas water ^ 2 * 1e3 * Water.cp water) T;
  let prop := <["gpp" := a - b]> prop in
  let prop := <["gs" := 0]> prop in
  let prop := <["gsp" := 0]> prop in
  Ok prop.

(** The pure-water set of [calculo]:
    [if self.kwargs["fast"] and T <= 313.15: ... else: ...]. *)
Definition pure_water (fast : bool) (T P : R) : result (gmap string R) :=
  if fast && py_le T 313.15 then Ok (_waterSupp T P) else _water T P.

(** One iteration of [for key in pw]:
    [prop[key] = pw[key]+ps[key]; self.__setattr__(key, prop[key])]. *)
Definition sum_step (ps : gmap string R) (key : string) (v : R)
  (st : result (gmap string R * SeaWater))
  : result (gmap string R * SeaWater) :=
  '(prop, self) ← st;
  x ← getitem ps key;
  let prop := <[key := v + x]> prop in
  Ok (prop, setattr self key (VNum (v + x))).

Definition sum_sets (pw ps : gmap string R) (self : SeaWater)
  : result (gmap string R * SeaWater) :=
  map_fold (sum_step ps) (Ok (∅, self)) pw.

(** Lines [self.T = T] to [self.w = ...]. *)
Definition derived (T P : R) (prop : gmap string R) (self : SeaWater)
  : result SeaWater :=
  let self := setattr self "T" (VNum T) in
  let self := setattr self "P" (VNum P) in
  gp ← getitem prop "gp";
  rho ← pydiv 1 gp;
  let self := setattr self "rho" (VNum rho) in
  let self := setattr self "v" (VNum gp) in
  gt ← getitem prop "gt";
  let self := setattr self "s" (VNum (- gt)) in
  gtt ← getitem prop "gtt";
  let self := setattr self "cp" (VNum (- T * gtt)) in
  g ← getitem prop "g";
  let self := setattr self "h" (VNum (g - T * gt)) in
  let self := setattr self "u" (VNum (g - T * gt - P * 1000 * gp)) in
  let self := setattr self "a" (VNum (g - P * 1000 * gp)) in
  gtp ← getitem prop "gtp";
  alfa ← pydiv gtp gp;
  let self := setattr self "alfa" (VNum alfa) in
  betas ← pydiv (- gtp) gtt;
  let self := setattr self "betas" (VNum betas) in
  gpp ← getitem prop "gpp";
  kt ← pydiv (- gpp) gp;
  let self := setattr self "kt" (VNum kt) in
  q ← pydiv (gtp ^ 2 - gt * gpp) gp;
  ks ← pydiv q gtt;
  let self := setattr self "ks" (VNum ks) in
  q ← pydiv (gtt * 1000) (gtp ^ 2 - gtt * 1000 * gpp * 1e-6);
  r ← pysqrt q;
  let self := setattr self "w" (VNum (gp * r)) in
  Ok self.

(** Lines [if S: ... else: ...] at the end of [calculo]. *)
Definition salinity_outputs (T S m : R) (prop ps : gmap string R)
  (self : SeaWater) : result SeaWater :=
  if Req_dec_T S 0 then
    let self := setattr self "mu" VNone in
    let self := setattr self "muw" VNone in
    let self := setattr self "mus" VNone in
    let self := setattr self "osm" VNone in
    let self := setattr self "haline" VNone in
    Ok self
  else
    gs ← getitem prop "gs";
    let self := setattr self "mu" (VNum gs) in
    g ← getitem prop "g";
    let self := setattr self "muw" (VNum (g - S * gs)) in
    let self := setattr self "mus" (VNum (g + (1 - S) * gs)) in
    psg ← getitem ps "g";
    q ← pydiv (- (psg - S * gs)) m;
    osm ← pydiv (q / Rm) T;
    let self := setattr self "osm" (VNum osm) in
    gsp ← getitem prop "gsp";
    gp ← getitem prop "gp";
    haline ← pydiv (- gsp) gp;
    let self := setattr self "haline" (VNum haline) in
    Ok self.

(** [SeaWater.calculo].  The three inputs are read as floats where the
    source first computes with them; an exception ends the method, and the
    partly updated instance is not part of the result. *)
Definition calculo (self : SeaWater) : result SeaWater :=
  T ← num (kw_T (kwargs self));
  P ← num (kw_P (kwargs self));
  S ← num (kw_S (kwargs self));
  q ← pydiv S (1 - S);
  let m := q / Ms in
  pw ← pure_water (kw_fast (kwargs self)) T P;
  ps ← _saline T P S;
  '(prop, self) ← sum_sets pw ps self;
  self ← derived T P prop self;
  salinity_outputs T S m prop ps self.

(** [SeaWater.__call__] *)
Definition __call__ (self : SeaWater) (kw : kwargs_upd) : result SeaWater :=
  let self := {| kwargs := update (kwargs self) kw; attrs := attrs self |} in
  if truth (kw_T (kwargs self)) && truth (kw_P (kwargs self))
     && bool_decide (kw_S (kwargs self) ≠ None)
  then
    let self := setattr self "status" (VNum 1) in
    self ← calculo self;
    Ok (setattr self "msg" (VStr ""))
  else Ok self.

(** [SeaWater.__init__]: [self.kwargs = SeaWater.kwargs.copy()], then
    a call of [__call__] with the same keyword arguments. *)
Definition __init__ (kw : kwargs_upd) : result SeaWater :=
  __call__ {| kwargs := SeaWater_kwargs; attrs := ∅ |} kw.

End SeaWater.

(** ** Vocabulary of the statements

    The definitions below are not part of the program: they name the key
    sets, the values and the concrete inputs that the theorems talk
    about. *)

(** The keys of a derivative set. *)
Definition keys8 : list string :=
  ["g"; "gt"; "gp"; "gtt"; "gtp"; "gpp"; "gs"; "gsp"]%string.

(** A dictionary whose keys are exactly [keys8]. *)
Definition has_keys8 (d : gmap string R) : Prop :=
  forall key, is_Some (d !! key) <-> key ∈ keys8.

(** The dictionary with the eight keys and the given values. *)
Definition dict8 (g gt gp gtt gtp gpp gs gsp : R) : gmap string R :=
  <["gsp" := gsp]> (<["gs" := gs]> (<["gpp" := gpp]> (<["gtp" := gtp]>
  (<["gtt" := gtt]> (<["gp" := gp]> (<["gt" := gt]> (<["g" := g]> ∅))))))).

(** The attributes written by [derived], by [salinity_outputs] and by
    [calculo] as a whole. *)
Definition derived_names : list string :=
  ["T"; "P"; "rho"; "v"; "s"; "cp"; "h"; "u"; "a"; "alfa"; "betas"; "kt";
   "ks"; "w"]%string.

Definition salinity_names : list string :=
  ["mu"; "muw"; "mus"; "osm"; "haline"]%string.

Definition calculo_names : list string :=
  keys8 ++ derived_names ++ salinity_names.

(** [pw[key] + ps[key]] when both dictionaries have the key. *)
Definition sum_lookup (pw ps : gmap string R) (key : string) : option R :=
  match pw !! key, ps !! key with
  | Some v, Some x => Some (v + x)
  | _, _ => None
  end.

(** What the loop [for key in pw] has established once it has run over the
    dictionary [pw]. *)
Definition sum_sets_post (ps : gmap string R) (self : SeaWater)
  (r : result (gmap string R * SeaWater)) (pw : gmap string R) : Prop :=
  match r with
  | Ok (prop, self') =>
      kwargs self' = kwargs self /\
      (forall key v, pw !! key = Some v -> is_Some (ps !! key)) /\
      (forall key, prop !! key = sum_lookup pw ps key) /\
      (forall key, attrs self' !! key =
         match pw !! key with
         | Some _ => VNum <$> sum_lookup pw ps key
         | None => attrs self !! key
         end)
  | Raise e =>
      e = KeyError /\ exists key, is_Some (pw !! key) /\ ps !! key = None
  end.

(** The value of [x ** (a - b)] when no exception is raised. *)
Definition pow_sub (x : R) (a b : nat) : R :=
  if (b <=? a)%nat then x ^ (a - b) else / x ^ (b - a).

(** The value of one iteration of the saline loop when no exception is
    raised, that is for [0 < X] (lemma [body_pos]). *)
Definition body_value (X tau pi : R) (a : Saline.acc)
  (e : nat * nat * nat * R) : Saline.acc :=
  let '(i, j, k, gi) := e in
  let a :=
    if (i =? 1)%nat then
      Saline.add_gs (Saline.add_g a (gi * X ^ 2 * ln X * tau ^ j * pi ^ k))
        (gi * (2 * ln X + 1) * tau ^ j * pi ^ k)
    else
      Saline.add_gs (Saline.add_g a (gi * X ^ i * tau ^ j * pi ^ k))
        (INR i * gi * pow_sub X i 2 * tau ^ j * pi ^ k) in
  let a :=
    if (1 <=? j)%nat then
      if (i =? 1)%nat
      then Saline.add_gt a
             (gi * X ^ 2 * ln X * INR j * tau ^ (j - 1) * pi ^ k)
      else Saline.add_gt a (gi * X ^ i * INR j * tau ^ (j - 1) * pi ^ k)
    else a in
  let a :=
    if (1 <=? k)%nat then
      Saline.add_gsp
        (Saline.add_gp a (INR k * gi * X ^ i * tau ^ j * pi ^ (k - 1)))
        (INR (i * k) * gi * pow_sub X i 2 * tau ^ j * pi ^ (k - 1))
    else a in
  Saline.step_gpp X tau pi i j k gi
    (Saline.step_gtp X tau pi i j k gi (Saline.step_gtt X tau pi i j k gi a)).

(** A table entry with [i = 1] (the logarithmic term) has [j <= 1] and
    [k = 0], and the statements guarded by [k >= 1], [j >= 2],
    [j >= 1 and k >= 1] and [k >= 2] leave the accumulators alone. *)
Definition log_entry_ok (e : nat * nat * nat * R) : Prop :=
  let '(i, j, k, gi) := e in
  i = 1%nat ->
  (j <= 1)%nat /\ k = 0%nat /\
  forall X tau pi a,
    Saline.step_gp_gsp X tau pi i j k gi a = Ok a /\
    Saline.step_gtt X tau pi i j k gi a = a /\
    Saline.step_gtp X tau pi i j k gi a = a /\
    Saline.step_gpp X tau pi i j k gi a = a /\
    Saline.body X tau pi a e =
      (a1 ← Saline.step_g_gs X tau pi i j k gi a;
       Saline.step_gt X tau pi i j k gi a1).

(** The condition of [__call__]. *)
Definition ready (kw : kwargs_t) : bool :=
  truth (kw_T kw) && truth (kw_P kw) && bool_decide (kw_S kw ≠ None).

(** A concrete input: the reference point of both series
    ([tau = pi = 0]) at the reference salinity ([X = 1]), in fast mode. *)
Definition example_kwargs : kwargs_t :=
  {| kw_T := Some 273.15; kw_P := Some 0.101325; kw_S := Some Saline.S_;
     kw_fast := true |}.

Definition example_self : SeaWater :=
  {| kwargs := example_kwargs; attrs := ∅ |}.

Definition example_upd : kwargs_upd :=
  {| upd_T := Some (Some 273.15); upd_P := Some (Some 0.101325);
     upd_S := Some (Some Saline.S_); upd_fast := Some true |}.

(** An [IAPWS95] that always fails. *)
Definition no_iapws95 : R -> R -> result Water.t :=
  fun _ _ => Raise (ExternalError 0).

(** ** Vocabulary of the further properties *)

(** The keyword arguments of two calls in a row, as those of one call. *)
Definition merge_upd (u1 u2 : kwargs_upd) : kwargs_upd :=
  {| upd_T := match upd_T u2 with Some v => Some v | None => upd_T u1 end;
     upd_P := match upd_P u2 with Some v => Some v | None => upd_P u1 end;
     upd_S := match upd_S u2 with Some v => Some v | None => upd_S u1 end;
     upd_fast :=
       match upd_fast u2 with Some v => Some v | None => upd_fast u1 end |}.

(** The sum of [f e] over the entries [e] of a table. *)
Fixpoint Rsum {A : Type} (f : A -> R) (l : list A) : R :=
  match l with
  | [] => 0
  | e :: l' => f e + Rsum f l'
  end.

(** [d[key]], read as 0 when the key is missing. *)
Definition item (d : gmap string R) (key : string) : R :=
  default 0 (d !! key).

(** [_saline(T, P, S)[key]], read as 0 when the call raises. *)
Definition saline_item (key : string) (T P S : R) : R :=
  match _saline T P S with
  | Ok d => item d key
  | Raise _ => 0
  end.

(** The salinity variable [X] as a function of [S]. *)
Definition Xof (S : R) : R := sqrt (S / Saline.S_).

(** The accumulators of the saline loop for [S > 0], over any table. *)
Definition saline_fold (l : list (nat * nat * nat * R)) (T P S : R)
  : Saline.acc :=
  fold_left (body_value (Xof S) (Saline.tau T) (Saline.pi P)) l Saline.acc0.

(** The factor of a saline term that depends on the salinity alone. *)
Definition Xfactor (X : R) (i : nat) (gi : R) : R :=
  if (i =? 1)%nat then gi * X ^ 2 * ln X else gi * X ^ i.

(** The entries on which the plain-power statements agree with the
    logarithmic term: all but those with [i = 1] and [j >= 2] or
    [k >= 1]. *)
Definition plain_entry (e : nat * nat * nat * R) : Prop :=
  let '(i, j, k, gi) := e in i = 1%nat -> (j <= 1)%nat /\ k = 0%nat.

(** A pure-water state with round values, and a formulation that returns
    it everywhere. *)
Definition example_water : Water.t :=
  {| Water.h := 100; Water.s := 0.5; Water.rho := 1000; Water.cp := 4;
     Water.betas := 0.02; Water.w := 1500 |}.

Definition const_iapws95 : R -> R -> result Water.t :=
  fun _ _ => Ok example_water.

(** * Properties *)

Section Properties.

  (** The pure-water formulation is arbitrary throughout. *)
  Variable eos : R -> R -> result Water.t.

Lemma pylog_pos x : 0 < x -> pylog x = Ok (ln x).
Proof. intros. unfold pylog. destruct (Rlt_dec 0 x); done. Qed.

Lemma pypow_sub_ne x a b : x <> 0 -> pypow_sub x a b = Ok (pow_sub x a b).
Proof.
  intros. unfold pypow_sub, pow_sub.
  destruct (b <=? a)%nat; [done|]. destruct (Req_dec_T x 0); done.
Qed.

Lemma body_pos X tau pi a e :
  0 < X -> Saline.body X tau pi a e = Ok (body_value X tau pi a e).
Proof.
  intros HX. destruct e as [[[i j] k] gi].
  unfold Saline.body, body_value, Saline.step_g_gs, Saline.step_gt, Saline.step_gp_gsp.
  rewrite !pylog_pos, !pypow_sub_ne by lra.
  destruct (i =? 1)%nat, (1 <=? j)%nat, (1 <=? k)%nat; reflexivity.
Qed.

Lemma for_each_pos X tau pi l a :
  0 < X ->
  for_each (Saline.body X tau pi) l a = Ok (fold_left (body_value X tau pi) l a).
Proof.
  intros HX. revert a. induction l as [|e l IH]; intros a; simpl; [done|].
  rewrite body_pos by done. simpl. apply IH.
Qed.

Lemma bind_Ok {A B} (m : result A) (k : A -> result B) b :
  m ≫= k = Ok b -> exists a, m = Ok a /\ k a = Ok b.
Proof. destruct m as [a|e]; simpl; [eauto | discriminate]. Qed.

Lemma pydiv_Ok a b q : pydiv a b = Ok q -> b <> 0 /\ q = a / b.
Proof. unfold pydiv. destruct (Req_dec_T b 0); [discriminate|]. intros [= <-]. done. Qed.

Lemma pydiv_ne a b : b <> 0 -> pydiv a b = Ok (a / b).
Proof. unfold pydiv. destruct (Req_dec_T b 0); done. Qed.

Lemma pysqrt_Ok x r : pysqrt x = Ok r -> 0 <= x /\ r = sqrt x.
Proof. unfold pysqrt. destruct (Rle_dec 0 x); [|discriminate]. intros [= <-]. done. Qed.

Lemma getitem_Ok d key v : getitem d key = Ok v -> d !! key = Some v.
Proof. unfold getitem. destruct (d !! key); [|discriminate]. by intros [= <-]. Qed.

Ltac inv_bind H :=
  repeat match type of H with
  | _ ≫= _ = Ok _ =>
      let a := fresh "a" in let Ha := fresh "Ha" in
      apply bind_Ok in H; destruct H as (a & Ha & H)
  end.
Ltac inv_ops :=
  repeat match goal with
  | H : getitem _ _ = Ok _ |- _ => apply getitem_Ok in H
  | H : pydiv _ _ = Ok _ |- _ => apply pydiv_Ok in H; destruct H as [? ->]
  | H : pysqrt _ = Ok _ |- _ => apply pysqrt_Ok in H; destruct H as [? ->]
  end.

Ltac attr_eq :=
  unfold setattr; simpl;
  repeat (rewrite lookup_insert_ne by discriminate);
  first [apply lookup_insert_eq | reflexivity].

Lemma derived_inv T P prop self self' :
  derived T P prop self = Ok self' ->
  exists g gt gp gtt gtp gpp,
    (prop !! "g" = Some g /\ prop !! "gt" = Some gt /\ prop !! "gp" = Some gp /\
     prop !! "gtt" = Some gtt /\ prop !! "gtp" = Some gtp /\ prop !! "gpp" = Some gpp) /\
    (gp <> 0 /\ gtt <> 0 /\ gtp ^ 2 - gtt * 1000 * gpp * 1e-6 <> 0 /\
     0 <= gtt * 1000 / (gtp ^ 2 - gtt * 1000 * gpp * 1e-6)) /\
    kwargs self' = kwargs self /\
    (forall name, name ∉ derived_names -> attrs self' !! name = attrs self !! name) /\
    attrs self' !! "T" = Some (VNum T) /\
    attrs self' !! "P" = Some (VNum P) /\
    attrs self' !! "rho" = Some (VNum (1 / gp)) /\
    attrs self' !! "v" = Some (VNum gp) /\
    attrs self' !! "s" = Some (VNum (- gt)) /\
    attrs self' !! "cp" = Some (VNum (- T * gtt)) /\
    attrs self' !! "h" = Some (VNum (g - T * gt)) /\
    attrs self' !! "u" = Some (VNum (g - T * gt - P * 1000 * gp)) /\
    attrs self' !! "a" = Some (VNum (g - P * 1000 * gp)) /\
    attrs self' !! "alfa" = Some (VNum (gtp / gp)) /\
    attrs self' !! "betas" = Some (VNum (- gtp / gtt)) /\
    attrs self' !! "kt" = Some (VNum (- gpp / gp)) /\
    attrs self' !! "ks" = Some (VNum ((gtp ^ 2 - gt * gpp) / gp / gtt)) /\
    attrs self' !! "w" =
      Some (VNum (gp * sqrt (gtt * 1000 / (gtp ^ 2 - gtt * 1000 * gpp * 1e-6)))).
Proof.
  unfold derived. intros H. inv_bind H. inv_ops. injection H as <-.
  eexists _, _, _, _, _, _.
  split; [by repeat split|]. split; [by repeat split|]. split; [done|].
  split.
  { intros name Hn. unfold setattr; simpl.
    unfold derived_names in Hn. rewrite !not_elem_of_cons in Hn.
    destruct_and!. by rewrite !lookup_insert_ne by congruence. }
  repeat split; attr_eq.
Qed.

Lemma sum_sets_spec pw ps self :
  sum_sets_post ps self (sum_sets pw ps self) pw.
Proof.
  unfold sum_sets.
  apply (map_fold_weak_ind (sum_sets_post ps self)).
  - simpl. repeat split; done.
  - intros i x m r Hi IH. unfold sum_step.
    destruct r as [[prop self']|e]; simpl in *.
    + destruct IH as (Hk & Hdom & Hprop & Hattr).
      unfold getitem. destruct (ps !! i) as [y|] eqn:Hy; simpl.
      * split; [done|]. split.
        { intros key v. rewrite lookup_insert. case_decide; subst; eauto. }
        split.
        { intros key. unfold sum_lookup. rewrite !lookup_insert.
          case_decide; subst; [by rewrite Hy|]. apply Hprop. }
        { intros key. unfold sum_lookup. rewrite !lookup_insert.
          case_decide; subst; [by rewrite Hy|]. apply Hattr. }
      * split; [done|]. exists i. by rewrite lookup_insert_eq.
    + destruct IH as (-> & key & Hkey & Hps). split; [done|].
      exists key. split; [|done]. rewrite lookup_insert_ne; [done|].
      intros ->. rewrite Hi in Hkey. by destruct Hkey.
Qed.

Lemma salinity_outputs_inv T S m prop ps self self' :
  salinity_outputs T S m prop ps self = Ok self' ->
  kwargs self' = kwargs self /\
  (forall name, name ∉ salinity_names -> attrs self' !! name = attrs self !! name) /\
  (S = 0 ->
     attrs self' !! "mu" = Some VNone /\ attrs self' !! "muw" = Some VNone /\
     attrs self' !! "mus" = Some VNone /\ attrs self' !! "osm" = Some VNone /\
     attrs self' !! "haline" = Some VNone) /\
  (S <> 0 ->
     exists g gp gs gsp psg,
       (prop !! "g" = Some g /\ prop !! "gp" = Some gp /\ prop !! "gs" = Some gs /\
        prop !! "gsp" = Some gsp /\ ps !! "g" = Some psg) /\
       (m <> 0 /\ T <> 0 /\ gp <> 0) /\
       attrs self' !! "mu" = Some (VNum gs) /\
       attrs self' !! "muw" = Some (VNum (g - S * gs)) /\
       attrs self' !! "mus" = Some (VNum (g + (1 - S) * gs)) /\
       attrs self' !! "osm" = Some (VNum (- (psg - S * gs) / m / Rm / T)) /\
       attrs self' !! "haline" = Some (VNum (- gsp / gp))).
Proof.
  unfold salinity_outputs. intros H.
  assert (Hframe : forall (a : SeaWater) v1 v2 v3 v4 v5 name,
    name ∉ salinity_names ->
    attrs (setattr (setattr (setattr (setattr (setattr a "mu" v1) "muw" v2) "mus" v3) "osm" v4) "haline" v5) !! name = attrs a !! name).
  { intros a v1 v2 v3 v4 v5 name Hn. unfold salinity_names in Hn.
    rewrite !not_elem_of_cons in Hn. destruct_and!.
    unfold setattr; simpl. by rewrite !lookup_insert_ne by congruence. }
  destruct (Req_dec_T S 0) as [HS|HS].
  - injection H as <-. split; [done|]. split; [apply Hframe|].
    split; [|done]. intros _. repeat split; attr_eq.
  - inv_bind H. inv_ops. injection H as <-. split; [done|]. split; [apply Hframe|].
    split; [done|]. intros _. eexists _, _, _, _, _.
    split; [by repeat split|]. split; [by repeat split|].
    repeat split; attr_eq.
Qed.

Lemma num_Ok v x : num v = Ok x -> v = Some x.
Proof. destruct v; simpl; [|discriminate]. by intros [= <-]. Qed.

Lemma calculo_inv self self' :
  calculo eos self = Ok self' ->
  exists T P S pw ps prop self1 self2,
    (kw_T (kwargs self) = Some T /\ kw_P (kwargs self) = Some P /\
     kw_S (kwargs self) = Some S) /\
    S <> 1 /\
    pure_water eos (kw_fast (kwargs self)) T P = Ok pw /\
    _saline T P S = Ok ps /\
    sum_sets pw ps self = Ok (prop, self1) /\
    derived T P prop self1 = Ok self2 /\
    salinity_outputs T S (S / (1 - S) / Ms) prop ps self2 = Ok self'.
Proof.
  unfold calculo. intros H.
  apply bind_Ok in H as (T & HT%num_Ok & H).
  apply bind_Ok in H as (P & HP%num_Ok & H).
  apply bind_Ok in H as (S & HS%num_Ok & H).
  apply bind_Ok in H as (q & [HS1 ->]%pydiv_Ok & H).
  apply bind_Ok in H as (pw & Hpw & H).
  apply bind_Ok in H as (ps & Hps & H).
  apply bind_Ok in H as ([prop self1] & Hsum & H).
  apply bind_Ok in H as (self2 & Hder & H).
  exists T, P, S, pw, ps, prop, self1, self2.
  repeat split; try done. lra.
Qed.

Ltac solve_notin := apply (bool_decide_unpack _); by vm_compute.

Lemma getattr_attrs self name v :
  attrs self !! name = Some v -> getattr self name = Ok v.
Proof. intros H. unfold getattr. by rewrite H. Qed.

Lemma has_keys8_chain (v1 v2 v3 v4 v5 v6 v7 v8 : R) :
  has_keys8 (<["gsp" := v8]> (<["gs" := v7]> (<["gpp" := v6]> (<["gtp" := v5]>
            (<["gtt" := v4]> (<["gp" := v3]> (<["gt" := v2]> (<["g" := v1]> ∅)))))))).
Proof.
  intros key. destruct (decide (key ∈ keys8)) as [Hin|Hout].
  - split; [done|]. intros _. unfold keys8 in Hin.
    rewrite !elem_of_cons, elem_of_nil in Hin.
    destruct_or!; subst; try done; eexists; reflexivity.
  - split; [|done]. intros Hsome. exfalso.
    unfold keys8 in Hout. rewrite !not_elem_of_cons in Hout. destruct_and!.
    rewrite !lookup_insert_ne, lookup_empty in Hsome by congruence.
    by destruct Hsome.
Qed.

Lemma normalise_keys a : has_keys8 (Saline.normalise a).
Proof. apply has_keys8_chain. Qed.

Lemma waterSupp_keys T P : has_keys8 (_waterSupp T P).
Proof. apply has_keys8_chain. Qed.

Lemma saline_inv T P S ps :
  _saline T P S = Ok ps ->
  exists a, Saline.sums T P S = Ok a /\ ps = Saline.normalise a.
Proof.
  unfold _saline. intros H. apply bind_Ok in H as (a & Ha & [= <-]). eauto.
Qed.

Lemma water_keys T P pw : _water eos T P = Ok pw -> has_keys8 pw.
Proof.
  unfold _water. intros H. inv_bind H. injection H as <-. apply has_keys8_chain.
Qed.

Lemma pure_water_keys fast T P pw :
  pure_water eos fast T P = Ok pw -> has_keys8 pw.
Proof.
  unfold pure_water. destruct (fast && py_le T 313.15).
  - intros [= <-]. apply waterSupp_keys.
  - apply water_keys.
Qed.

Lemma keys8_lookup d key : has_keys8 d -> key ∈ keys8 -> exists v, d !! key = Some v.
Proof. intros Hd Hk. by apply Hd. Qed.

Lemma keys8_none d key : has_keys8 d -> key ∉ keys8 -> d !! key = None.
Proof.
  intros Hd Hk. destruct (d !! key) eqn:E; [|done].
  exfalso. apply Hk, Hd. eauto.
Qed.

Lemma sum_sets_inv pw ps self prop self1 :
  has_keys8 pw -> has_keys8 ps ->
  sum_sets pw ps self = Ok (prop, self1) ->
  kwargs self1 = kwargs self /\
  has_keys8 prop /\
  (forall key, key ∈ keys8 ->
     exists v x, pw !! key = Some v /\ ps !! key = Some x /\
                 prop !! key = Some (v + x) /\
                 attrs self1 !! key = Some (VNum (v + x))) /\
  (forall key, key ∉ keys8 -> attrs self1 !! key = attrs self !! key).
Proof.
  intros Hpw Hps Hsum. pose proof (sum_sets_spec pw ps self) as Hspec.
  rewrite Hsum in Hspec. simpl in Hspec.
  destruct Hspec as (Hk & _ & Hprop & Hattr).
  split; [done|]. split; [|split].
  - intros key. rewrite Hprop. unfold sum_lookup. split.
    + intros Hs. apply Hpw. destruct (pw !! key); [eauto|by destruct Hs].
    + intros Hin. destruct (keys8_lookup pw key Hpw Hin) as [v ->].
      destruct (keys8_lookup ps key Hps Hin) as [x ->]. eauto.
  - intros key Hin.
    destruct (keys8_lookup pw key Hpw Hin) as [v Hv].
    destruct (keys8_lookup ps key Hps Hin) as [x Hx].
    exists v, x. rewrite Hattr, Hprop. unfold sum_lookup. by rewrite Hv, Hx.
  - intros key Hout. rewrite Hattr. by rewrite (keys8_none pw key Hpw Hout).
Qed.

(** Everything [calculo] establishes, stage by stage. *)
Lemma calculo_stages self self' :
  calculo eos self = Ok self' ->
  exists T P S pw ps prop self1 self2,
    (kw_T (kwargs self) = Some T /\ kw_P (kwargs self) = Some P /\
     kw_S (kwargs self) = Some S) /\
    S <> 1 /\
    (pure_water eos (kw_fast (kwargs self)) T P = Ok pw /\ has_keys8 pw) /\
    (_saline T P S = Ok ps /\ has_keys8 ps) /\
    sum_sets pw ps self = Ok (prop, self1) /\
    derived T P prop self1 = Ok self2 /\
    salinity_outputs T S (S / (1 - S) / Ms) prop ps self2 = Ok self'.
Proof.
  intros H. apply calculo_inv in H
    as (T & P & S & pw & ps & prop & self1 & self2 & Hkw & HS & Hpw & Hps & Hsum & Hder & Hsal).
  exists T, P, S, pw, ps, prop, self1, self2.
  split; [done|]. split; [done|].
  split; [split; [done|by eapply pure_water_keys]|].
  split; [split; [done|]|done].
  apply saline_inv in Hps as (a & _ & ->). apply normalise_keys.
Qed.

Lemma calculo_frame self self' name :
  calculo eos self = Ok self' -> name ∉ calculo_names ->
  attrs self' !! name = attrs self !! name.
Proof.
  intros H Hn. unfold calculo_names in Hn. rewrite !not_elem_of_app in Hn.
  destruct Hn as (Hn1 & Hn2 & Hn3).
  apply calculo_stages in H
    as (T & P & S & pw & ps & prop & self1 & self2 & Hkw & HS & [Hpw Hpwk] & [Hps Hpsk] & Hsum & Hder & Hsal).
  apply sum_sets_inv in Hsum as (_ & _ & _ & Hf1); [|done..].
  apply derived_inv in Hder as (g & gt & gp & gtt & gtp & gpp & _ & _ & _ & Hf2 & _).
  apply salinity_outputs_inv in Hsal as (_ & Hf3 & _).
  by rewrite Hf3, Hf2, Hf1.
Qed.

Lemma calculo_kwargs self self' :
  calculo eos self = Ok self' -> kwargs self' = kwargs self.
Proof.
  intros H.
  apply calculo_stages in H
    as (T & P & S & pw & ps & prop & self1 & self2 & Hkw & HS & [Hpw Hpwk] & [Hps Hpsk] & Hsum & Hder & Hsal).
  apply sum_sets_inv in Hsum as (Hk1 & _); [|done..].
  apply derived_inv in Hder as (g & gt & gp & gtt & gtp & gpp & _ & _ & Hk2 & _).
  apply salinity_outputs_inv in Hsal as (Hk3 & _).
  congruence.
Qed.

(** Claim C3.  Whenever [calculo] returns, the dictionary [prop] that the
    property formulas read is the key-wise sum of the pure-water set [pw]
    and the saline set [ps]: its keys are exactly the eight keys, and for
    each of them [prop[key] = pw[key] + ps[key]], which is also the value
    of the attribute of that name on the instance. *)
Theorem calculo_combined_is_keywise_sum self self' :
  calculo eos self = Ok self' ->
  exists T P S pw ps prop self1 self2,
    (kw_T (kwargs self) = Some T /\ kw_P (kwargs self) = Some P /\
     kw_S (kwargs self) = Some S) /\
    pure_water eos (kw_fast (kwargs self)) T P = Ok pw /\
    _saline T P S = Ok ps /\
    sum_sets pw ps self = Ok (prop, self1) /\
    derived T P prop self1 = Ok self2 /\
    salinity_outputs T S (S / (1 - S) / Ms) prop ps self2 = Ok self' /\
    (forall key, is_Some (prop !! key) <-> key ∈ keys8) /\
    (forall key, key ∈ keys8 ->
       exists v x, pw !! key = Some v /\ ps !! key = Some x /\
                   prop !! key = Some (v + x) /\
                   getattr self' key = Ok (VNum (v + x))).
Proof.
  intros H.
  apply calculo_stages in H
    as (T & P & S & pw & ps & prop & self1 & self2 & Hkw & HS & [Hpw Hpwk] & [Hps Hpsk] & Hsum & Hder & Hsal).
  exists T, P, S, pw, ps, prop, self1, self2.
  destruct (sum_sets_inv _ _ _ _ _ Hpwk Hpsk Hsum) as (_ & Hpk & Hsumk & _).
  apply derived_inv in Hder as Hd. destruct Hd as (g & gt & gp & gtt & gtp & gpp & _ & _ & _ & Hf2 & _).
  apply salinity_outputs_inv in Hsal as Hs. destruct Hs as (_ & Hf3 & _).
  do 6 (split; [done|]). split; [apply Hpk|].
  intros key Hin. destruct (Hsumk key Hin) as (v & x & Hv & Hx & Hp & Ha).
  exists v, x. repeat split; try done.
  apply getattr_attrs. rewrite Hf3, Hf2; [done|..].
  - unfold keys8 in Hin. rewrite !elem_of_cons, elem_of_nil in Hin.
    destruct_or!; subst; try done; solve_notin.
  - unfold keys8 in Hin. rewrite !elem_of_cons, elem_of_nil in Hin.
    destruct_or!; subst; try done; solve_notin.
Qed.

(** Claim C1.  Whenever [calculo] returns, the combined derivatives
    [g, gt, gp, gtt, gtp, gpp] stored on the instance have non-zero
    denominators and the twelve composed outputs are
    [rho = 1/gp], [v = gp], [s = -gt], [cp = -T*gtt], [h = g - T*gt],
    [u = g - T*gt - 1000*P*gp], [a = g - 1000*P*gp], [alfa = gtp/gp],
    [betas = -gtp/gtt], [kt = -gpp/gp],
    [ks = (gtp^2 - gt*gpp)/(gp*gtt)] and
    [w = gp*sqrt(1000*gtt/(gtp^2 - 1000*gtt*gpp*1e-6))]. *)
Theorem calculo_composed_outputs self self' :
  calculo eos self = Ok self' ->
  exists T P g gt gp gtt gtp gpp,
    (kw_T (kwargs self) = Some T /\ kw_P (kwargs self) = Some P) /\
    (getattr self' "g" = Ok (VNum g) /\ getattr self' "gt" = Ok (VNum gt) /\
     getattr self' "gp" = Ok (VNum gp) /\ getattr self' "gtt" = Ok (VNum gtt) /\
     getattr self' "gtp" = Ok (VNum gtp) /\ getattr self' "gpp" = Ok (VNum gpp)) /\
    (gp <> 0 /\ gtt <> 0 /\ gtp ^ 2 - 1000 * gtt * gpp * 1e-6 <> 0) /\
    getattr self' "rho" = Ok (VNum (1 / gp)) /\
    getattr self' "v" = Ok (VNum gp) /\
    getattr self' "s" = Ok (VNum (- gt)) /\
    getattr self' "cp" = Ok (VNum (- T * gtt)) /\
    getattr self' "h" = Ok (VNum (g - T * gt)) /\
    getattr self' "u" = Ok (VNum (g - T * gt - 1000 * P * gp)) /\
    getattr self' "a" = Ok (VNum (g - 1000 * P * gp)) /\
    getattr self' "alfa" = Ok (VNum (gtp / gp)) /\
    getattr self' "betas" = Ok (VNum (- gtp / gtt)) /\
    getattr self' "kt" = Ok (VNum (- gpp / gp)) /\
    getattr self' "ks" = Ok (VNum ((gtp ^ 2 - gt * gpp) / (gp * gtt))) /\
    getattr self' "w" =
      Ok (VNum (gp * sqrt (1000 * gtt / (gtp ^ 2 - 1000 * gtt * gpp * 1e-6)))).
Proof.
  intros H.
  apply calculo_stages in H
    as (T & P & S & pw & ps & prop & self1 & self2 & (HT & HP & _) & HS
        & [Hpw Hpwk] & [Hps Hpsk] & Hsum & Hder & Hsal).
  destruct (sum_sets_inv _ _ _ _ _ Hpwk Hpsk Hsum) as (_ & _ & Hsumk & _).
  apply derived_inv in Hder
    as (g & gt & gp & gtt & gtp & gpp
        & (Hg & Hgt & Hgp & Hgtt & Hgtp & Hgpp) & (Hgp0 & Hgtt0 & HD & _) & _ & Hf2
        & HaT & HaP & Hrho & Hv & Hs & Hcp & Hh & Hu & Ha & Halfa & Hbetas & Hkt & Hks & Hw).
  apply salinity_outputs_inv in Hsal as (_ & Hf3 & _).
  assert (Hkey : forall key x, key ∈ keys8 -> key ∉ derived_names ->
            key ∉ salinity_names -> prop !! key = Some x ->
            getattr self' key = Ok (VNum x)).
  { intros key x Hin Hn1 Hn2 Hx. apply getattr_attrs. rewrite Hf3, Hf2 by done.
    destruct (Hsumk key Hin) as (v & y & _ & _ & Hp & Hattr). congruence. }
  assert (Hd : forall name x, name ∉ salinity_names ->
            attrs self2 !! name = Some (VNum x) -> getattr self' name = Ok (VNum x)).
  { intros name x Hn Hx. apply getattr_attrs. by rewrite Hf3. }
  exists T, P, g, gt, gp, gtt, gtp, gpp.
  split; [done|].
  split. { repeat split; (apply Hkey; [solve_notin | solve_notin | solve_notin | done]). }
  split. { repeat split; try done. replace (1000 * gtt) with (gtt * 1000) by ring. done. }
  replace (g - T * gt - 1000 * P * gp) with (g - T * gt - P * 1000 * gp) by ring.
  replace (g - 1000 * P * gp) with (g - P * 1000 * gp) by ring.
  replace ((gtp ^ 2 - gt * gpp) / (gp * gtt)) with ((gtp ^ 2 - gt * gpp) / gp / gtt)
    by (by field).
  replace (1000 * gtt) with (gtt * 1000) by ring.
  repeat split; (apply Hd; [solve_notin | done]).
Qed.

(** Claim C4.  Whenever [calculo] returns: for [S = 0] the five
    salinity-dependent attributes hold [None]; for [S <> 0] they are
    [mu = gs], [muw = g - S*gs], [mus = g + (1-S)*gs],
    [osm = -(g_saline - S*gs)/(m*R*T)] with [m = S/(1-S)/Ms],
    [R = 8.314472] and [g_saline] the value of the saline set alone, and
    [haline = -gsp/gp]. *)
Theorem calculo_salinity_outputs self self' :
  calculo eos self = Ok self' ->
  exists T P S,
    (kw_T (kwargs self) = Some T /\ kw_P (kwargs self) = Some P /\
     kw_S (kwargs self) = Some S) /\
    (S = 0 ->
       getattr self' "mu" = Ok VNone /\ getattr self' "muw" = Ok VNone /\
       getattr self' "mus" = Ok VNone /\ getattr self' "osm" = Ok VNone /\
       getattr self' "haline" = Ok VNone) /\
    (S <> 0 ->
       exists ps g_saline g gp gs gsp,
         (_saline T P S = Ok ps /\ ps !! "g" = Some g_saline) /\
         (getattr self' "g" = Ok (VNum g) /\ getattr self' "gp" = Ok (VNum gp) /\
          getattr self' "gs" = Ok (VNum gs) /\ getattr self' "gsp" = Ok (VNum gsp)) /\
         (let m := S / (1 - S) / Ms in
          (m <> 0 /\ T <> 0 /\ gp <> 0) /\
          getattr self' "mu" = Ok (VNum gs) /\
          getattr self' "muw" = Ok (VNum (g - S * gs)) /\
          getattr self' "mus" = Ok (VNum (g + (1 - S) * gs)) /\
          getattr self' "osm" =
            Ok (VNum (- (g_saline - S * gs) / (m * 8.314472 * T))) /\
          getattr self' "haline" = Ok (VNum (- gsp / gp)))).
Proof.
  intros H.
  apply calculo_stages in H
    as (T & P & S & pw & ps & prop & self1 & self2 & Hkw & HS
        & [Hpw Hpwk] & [Hps Hpsk] & Hsum & Hder & Hsal).
  destruct (sum_sets_inv _ _ _ _ _ Hpwk Hpsk Hsum) as (_ & _ & Hsumk & _).
  apply derived_inv in Hder
    as (g0 & gt0 & gp0 & gtt0 & gtp0 & gpp0 & _ & _ & _ & Hf2 & _).
  apply salinity_outputs_inv in Hsal as (_ & Hf3 & Hzero & Hnz).
  exists T, P, S. split; [done|]. split.
  - intros HS0. destruct (Hzero HS0) as (? & ? & ? & ? & ?).
    repeat split; by apply getattr_attrs.
  - intros HS0.
    destruct (Hnz HS0)
      as (g & gp & gs & gsp & psg & (Hg & Hgp & Hgs & Hgsp & Hpsg) & (Hm & HT & Hgp0)
          & Hmu & Hmuw & Hmus & Hosm & Hhal).
    assert (Hkey : forall key x, key ∈ keys8 -> key ∉ derived_names ->
              key ∉ salinity_names -> prop !! key = Some x ->
              getattr self' key = Ok (VNum x)).
    { intros key x Hin Hn1 Hn2 Hx. apply getattr_attrs. rewrite Hf3, Hf2 by done.
      destruct (Hsumk key Hin) as (v & y & _ & _ & Hp & Hattr). congruence. }
    exists ps, psg, g, gp, gs, gsp.
    split; [done|].
    split. { repeat split; (apply Hkey; [solve_notin | solve_notin | solve_notin | done]). }
    cbv zeta. split; [done|].
    replace (- (psg - S * gs) / (S / (1 - S) / Ms * 8.314472 * T))
      with (- (psg - S * gs) / (S / (1 - S) / Ms) / Rm / T).
    2: { unfold Rm. field. unfold Ms in *. repeat split; try lra.  }
    repeat split; by apply getattr_attrs.
Qed.

(** Claim C9, as amended.  Whenever [calculo] returns, the attributes [T]
    and [P] of the instance are the inputs; the salinity stays in
    [kwargs], and [calculo] does not touch an attribute named [S]. *)
Theorem calculo_echoes_inputs self self' :
  calculo eos self = Ok self' ->
  exists T P S,
    (kw_T (kwargs self) = Some T /\ kw_P (kwargs self) = Some P /\
     kw_S (kwargs self) = Some S) /\
    getattr self' "T" = Ok (VNum T) /\
    getattr self' "P" = Ok (VNum P) /\
    kw_S (kwargs self') = Some S /\
    attrs self' !! "S" = attrs self !! "S".
Proof.
  intros H. pose proof (calculo_kwargs _ _ H) as Hk.
  pose proof (calculo_frame _ _ "S" H) as HfS.
  apply calculo_stages in H
    as (T & P & S & pw & ps & prop & self1 & self2 & Hkw & HS
        & [Hpw Hpwk] & [Hps Hpsk] & Hsum & Hder & Hsal).
  apply derived_inv in Hder
    as (g0 & gt0 & gp0 & gtt0 & gtp0 & gpp0 & _ & _ & _ & Hf2 & HaT & HaP & _).
  apply salinity_outputs_inv in Hsal as (_ & Hf3 & _).
  exists T, P, S. split; [done|].
  split. { apply getattr_attrs. rewrite Hf3; [done|solve_notin]. }
  split. { apply getattr_attrs. rewrite Hf3; [done|solve_notin]. }
  split. { rewrite Hk. apply Hkw. }
  apply HfS. solve_notin.
Qed.

Lemma getitem_Some d key v : d !! key = Some v -> getitem d key = Ok v.
Proof. intros H. unfold getitem. by rewrite H. Qed.

Lemma pysqrt_nonneg x : 0 <= x -> pysqrt x = Ok (sqrt x).
Proof. intros. unfold pysqrt. destruct (Rle_dec 0 x); done. Qed.

Lemma derived_ok T P prop self g gt gp gtt gtp gpp :
  prop !! "g" = Some g -> prop !! "gt" = Some gt -> prop !! "gp" = Some gp ->
  prop !! "gtt" = Some gtt -> prop !! "gtp" = Some gtp -> prop !! "gpp" = Some gpp ->
  gp <> 0 -> gtt <> 0 -> gtp ^ 2 - gtt * 1000 * gpp * 1e-6 <> 0 ->
  0 <= gtt * 1000 / (gtp ^ 2 - gtt * 1000 * gpp * 1e-6) ->
  exists self', derived T P prop self = Ok self'.
Proof.
  intros Hg Hgt Hgp Hgtt Hgtp Hgpp Hgp0 Hgtt0 HD Hrad. unfold derived.
  rewrite (getitem_Some _ _ _ Hg), (getitem_Some _ _ _ Hgt), (getitem_Some _ _ _ Hgp),
    (getitem_Some _ _ _ Hgtt), (getitem_Some _ _ _ Hgtp), (getitem_Some _ _ _ Hgpp).
  simpl.
  repeat (first [rewrite pydiv_ne by done | rewrite pysqrt_nonneg by done]; simpl).
  eauto.
Qed.

Lemma salinity_outputs_ok T S m prop ps self :
  has_keys8 prop -> has_keys8 ps ->
  (S <> 0 -> m <> 0 /\ T <> 0 /\ prop !! "gp" <> Some 0) ->
  exists self', salinity_outputs T S m prop ps self = Ok self'.
Proof.
  intros Hprop Hps Hc. unfold salinity_outputs.
  destruct (Req_dec_T S 0) as [HS|HS]; [eauto|].
  destruct (Hc HS) as (Hm & HT & Hgp).
  destruct (keys8_lookup prop "gs" Hprop ltac:(solve_notin)) as [gs Hgs].
  destruct (keys8_lookup prop "g" Hprop ltac:(solve_notin)) as [g Hg].
  destruct (keys8_lookup prop "gsp" Hprop ltac:(solve_notin)) as [gsp Hgsp].
  destruct (keys8_lookup prop "gp" Hprop ltac:(solve_notin)) as [gp Hgp'].
  destruct (keys8_lookup ps "g" Hps ltac:(solve_notin)) as [psg Hpsg].
  rewrite (getitem_Some _ _ _ Hgs), (getitem_Some _ _ _ Hg), (getitem_Some _ _ _ Hgsp),
    (getitem_Some _ _ _ Hgp'), (getitem_Some _ _ _ Hpsg).
  simpl. rewrite (pydiv_ne _ m) by done. simpl. rewrite (pydiv_ne _ T) by done. simpl.
  rewrite pydiv_ne by congruence. simpl. eauto.
Qed.

Lemma sum_sets_ok pw ps self :
  has_keys8 pw -> has_keys8 ps ->
  exists prop self1, sum_sets pw ps self = Ok (prop, self1).
Proof.
  intros Hpw Hps. pose proof (sum_sets_spec pw ps self) as Hspec.
  destruct (sum_sets pw ps self) as [[prop self1]|e]; [eauto|].
  simpl in Hspec. destruct Hspec as (_ & key & Hin & Hout).
  apply Hpw, Hps in Hin. rewrite Hout in Hin. by destruct Hin.
Qed.

Lemma calculo_ok self T P S pw ps :
  kw_T (kwargs self) = Some T -> kw_P (kwargs self) = Some P ->
  kw_S (kwargs self) = Some S ->
  S <> 1 ->
  pure_water eos (kw_fast (kwargs self)) T P = Ok pw ->
  _saline T P S = Ok ps ->
  (forall g gt gp gtt gtp gpp,
     sum_lookup pw ps "g" = Some g -> sum_lookup pw ps "gt" = Some gt ->
     sum_lookup pw ps "gp" = Some gp -> sum_lookup pw ps "gtt" = Some gtt ->
     sum_lookup pw ps "gtp" = Some gtp -> sum_lookup pw ps "gpp" = Some gpp ->
     gp <> 0 /\ gtt <> 0 /\ gtp ^ 2 - gtt * 1000 * gpp * 1e-6 <> 0 /\
     0 <= gtt * 1000 / (gtp ^ 2 - gtt * 1000 * gpp * 1e-6)) ->
  (S <> 0 -> T <> 0) ->
  exists self', calculo eos self = Ok self'.
Proof.
  intros HT HP HS HS1 Hpw Hps Hcond HT0.
  pose proof (pure_water_keys _ _ _ _ Hpw) as Hpwk.
  assert (Hpsk : has_keys8 ps).
  { apply saline_inv in Hps as (a & _ & ->). apply normalise_keys. }
  destruct (sum_sets_ok pw ps self Hpwk Hpsk) as (prop & self1 & Hsum).
  destruct (sum_sets_inv _ _ _ _ _ Hpwk Hpsk Hsum) as (_ & Hpropk & Hsumk & _).
  pose proof (sum_sets_spec pw ps self) as Hspec. rewrite Hsum in Hspec.
  simpl in Hspec. destruct Hspec as (_ & _ & Hprop & _).
  destruct (keys8_lookup prop "g" Hpropk ltac:(solve_notin)) as [g Hg].
  destruct (keys8_lookup prop "gt" Hpropk ltac:(solve_notin)) as [gt Hgt].
  destruct (keys8_lookup prop "gp" Hpropk ltac:(solve_notin)) as [gp Hgp].
  destruct (keys8_lookup prop "gtt" Hpropk ltac:(solve_notin)) as [gtt Hgtt].
  destruct (keys8_lookup prop "gtp" Hpropk ltac:(solve_notin)) as [gtp Hgtp].
  destruct (keys8_lookup prop "gpp" Hpropk ltac:(solve_notin)) as [gpp Hgpp].
  destruct (Hcond g gt gp gtt gtp gpp) as (Hgp0 & Hgtt0 & HD & Hrad);
    try (by rewrite <- Hprop).
  destruct (derived_ok T P prop self1 g gt gp gtt gtp gpp) as [self2 Hder]; try done.
  destruct (salinity_outputs_ok T S (S / (1 - S) / Ms) prop ps self2) as [self' Hsal];
    try done.
  { intros HS0. split; [|split; [by apply HT0|]].
    - unfold Ms. intros Hm. apply HS0.
      apply Rmult_integral in Hm as [Hm|Hm].
      + apply Rmult_integral in Hm as [Hm|Hm]; [done|].
        exfalso. revert Hm. apply Rinv_neq_0_compat. lra.
      + exfalso. revert Hm. apply Rinv_neq_0_compat. lra.
    - rewrite Hgp. congruence. }
  exists self'. unfold calculo. rewrite HT, HP, HS. simpl.
  rewrite pydiv_ne by lra. simpl. rewrite Hpw. simpl. rewrite Hps. simpl.
  rewrite Hsum. simpl. rewrite Hder. simpl. done.
Qed.

Lemma py_le_true x y : x <= y -> py_le x y = true.
Proof. intros. unfold py_le. destruct (Rle_dec x y); done. Qed.

Lemma py_le_false x y : ~ x <= y -> py_le x y = false.
Proof. intros. unfold py_le. destruct (Rle_dec x y); done. Qed.

Lemma dict8_lookup g gt gp gtt gtp gpp gs gsp :
  let d := dict8 g gt gp gtt gtp gpp gs gsp in
  d !! "g" = Some g /\ d !! "gt" = Some gt /\ d !! "gp" = Some gp /\
  d !! "gtt" = Some gtt /\ d !! "gtp" = Some gtp /\ d !! "gpp" = Some gpp /\
  d !! "gs" = Some gs /\ d !! "gsp" = Some gsp.
Proof. repeat split; reflexivity. Qed.

Lemma sum_lookup_dict8 g gt gp gtt gtp gpp gs gsp g' gt' gp' gtt' gtp' gpp' gs' gsp' :
  let pw := dict8 g gt gp gtt gtp gpp gs gsp in
  let ps := dict8 g' gt' gp' gtt' gtp' gpp' gs' gsp' in
  sum_lookup pw ps "g" = Some (g + g') /\
  sum_lookup pw ps "gt" = Some (gt + gt') /\
  sum_lookup pw ps "gp" = Some (gp + gp') /\
  sum_lookup pw ps "gtt" = Some (gtt + gtt') /\
  sum_lookup pw ps "gtp" = Some (gtp + gtp') /\
  sum_lookup pw ps "gpp" = Some (gpp + gpp').
Proof. repeat split; reflexivity. Qed.

Lemma normalise_dict8 a :
  Saline.normalise a =
  dict8 (Saline.g a * 1e-3) (Saline.gt a / 40 * 1e-3) (Saline.gp a / 100 * 1e-6)
    (Saline.gtt a / 40 ^ 2 * 1e-3) (Saline.gtp a / 40 / 100 * 1e-6)
    (Saline.gpp a / 100 ^ 2 * 1e-6) (Saline.gs a / Saline.S_ / 2 * 1e-3)
    (Saline.gsp a / Saline.S_ / 2 / 100 * 1e-6).
Proof. unfold Saline.normalise, dict8. reflexivity. Qed.

Lemma waterSupp_dict8 T P :
  let a := WaterSupp.sums T P in
  _waterSupp T P =
  dict8 (WaterSupp.g a * 1e-3) (WaterSupp.gt a / 40 * 1e-3)
    (WaterSupp.gp a / 100 * 1e-6) (WaterSupp.gtt a / 40 ^ 2 * 1e-3)
    (WaterSupp.gtp a / 40 / 100 * 1e-6) (WaterSupp.gpp a / 100 ^ 2 * 1e-6) 0 0.
Proof. unfold _waterSupp, dict8. reflexivity. Qed.

Lemma normalise_lookup a :
  let d := Saline.normalise a in
  d !! "g" = Some (Saline.g a * 1e-3) /\
  d !! "gt" = Some (Saline.gt a / 40 * 1e-3) /\
  d !! "gp" = Some (Saline.gp a / 100 * 1e-6) /\
  d !! "gtt" = Some (Saline.gtt a / 40 ^ 2 * 1e-3) /\
  d !! "gtp" = Some (Saline.gtp a / 40 / 100 * 1e-6) /\
  d !! "gpp" = Some (Saline.gpp a / 100 ^ 2 * 1e-6) /\
  d !! "gs" = Some (Saline.gs a / Saline.S_ / 2 * 1e-3) /\
  d !! "gsp" = Some (Saline.gsp a / Saline.S_ / 2 / 100 * 1e-6).
Proof. cbv zeta. rewrite normalise_dict8. apply dict8_lookup. Qed.

Lemma waterSupp_lookup T P :
  let a := WaterSupp.sums T P in
  let d := _waterSupp T P in
  d !! "g" = Some (WaterSupp.g a * 1e-3) /\
  d !! "gt" = Some (WaterSupp.gt a / 40 * 1e-3) /\
  d !! "gp" = Some (WaterSupp.gp a / 100 * 1e-6) /\
  d !! "gtt" = Some (WaterSupp.gtt a / 40 ^ 2 * 1e-3) /\
  d !! "gtp" = Some (WaterSupp.gtp a / 40 / 100 * 1e-6) /\
  d !! "gpp" = Some (WaterSupp.gpp a / 100 ^ 2 * 1e-6) /\
  d !! "gs" = Some 0 /\
  d !! "gsp" = Some 0.
Proof. cbv zeta. rewrite waterSupp_dict8. apply dict8_lookup. Qed.

Lemma S_ref_pos : 0 < Saline.S_.
Proof. unfold Saline.S_. lra. Qed.

Lemma X_zero : Saline.X 0 = Ok 0.
Proof.
  unfold Saline.X. replace (0 / Saline.S_) with 0 by (unfold Rdiv; ring).
  rewrite pysqrt_nonneg by lra. by rewrite sqrt_0.
Qed.

Lemma X_pos S : 0 < S -> Saline.X S = Ok (sqrt (S / Saline.S_)) /\ 0 < sqrt (S / Saline.S_).
Proof.
  intros HS. pose proof S_ref_pos as H_.
  assert (0 < S / Saline.S_) by (by apply Rdiv_lt_0_compat).
  split; [|by apply sqrt_lt_R0]. unfold Saline.X. apply pysqrt_nonneg. lra.
Qed.

Lemma pylog_nonpos x : x <= 0 -> pylog x = Raise ValueError.
Proof. intros. unfold pylog. destruct (Rlt_dec 0 x); [lra|done]. Qed.

Lemma for_each_first_raise {A E} (body : A -> E -> result A) e l a err :
  body a e = Raise err -> for_each body (e :: l) a = Raise err.
Proof. intros H. simpl. by rewrite H. Qed.

Lemma loop_at_zero tau pi : Saline.loop 0 tau pi = Raise ValueError.
Proof.
  unfold Saline.loop. 
  cbv [zip4 Saline.I Saline.J Saline.K Saline.G].
  apply for_each_first_raise.
  unfold Saline.body, Saline.step_g_gs. simpl Nat.eqb. cbv iota.
  by rewrite pylog_nonpos by lra.
Qed.

(** Claim C2.  At [S = 0] the saline term returns, for every [T] and [P],
    a dictionary with exactly the eight keys, each of them zero.  The loop
    is not run: the accumulators keep their initial values, whereas a run
    of the loop at [X = 0] would raise on [log(0)] in its first
    iteration. *)
Theorem saline_zero_salinity T P :
  exists ps,
    _saline T P 0 = Ok ps /\
    (forall key, is_Some (ps !! key) <-> key ∈ keys8) /\
    (forall key, key ∈ keys8 -> ps !! key = Some 0) /\
    Saline.X 0 = Ok 0 /\
    Saline.sums T P 0 = Ok Saline.acc0 /\
    Saline.loop 0 (Saline.tau T) (Saline.pi P) = Raise ValueError.
Proof.
  assert (Hsums : Saline.sums T P 0 = Ok Saline.acc0).
  { unfold Saline.sums. rewrite X_zero. simpl.
    destruct (Req_dec_T 0 0); [done|lra]. }
  exists (Saline.normalise Saline.acc0).
  split. { unfold _saline. by rewrite Hsums. }
  split. { apply normalise_keys. }
  split.
  { intros key Hin. unfold keys8 in Hin.
    rewrite !elem_of_cons, elem_of_nil in Hin.
    destruct (normalise_lookup Saline.acc0)
      as (H1 & H2 & H3 & H4 & H5 & H6 & H7 & H8).
    cbv [Saline.acc0 Saline.g Saline.gt Saline.gp Saline.gtt Saline.gtp
         Saline.gpp Saline.gs Saline.gsp] in *.
    destruct_or!; subst; try done;
      first [rewrite H1 | rewrite H2 | rewrite H3 | rewrite H4
            | rewrite H5 | rewrite H6 | rewrite H7 | rewrite H8];
      f_equal; unfold Rdiv; ring. }
  split; [apply X_zero|]. split; [done|]. apply loop_at_zero.
Qed.

(** Claim C7.  For every [S > 0], however small, the saline term returns:
    [X = sqrt(S/S_)] is positive, the logarithm of [X] is defined, every
    iteration of the loop succeeds, and so do the loop and [_saline]. *)
Theorem saline_total_for_positive_salinity T P S :
  0 < S ->
  exists x a,
    Saline.X S = Ok x /\ x = sqrt (S / Saline.S_) /\ 0 < x /\
    pylog x = Ok (ln x) /\
    (forall acc e, exists acc', Saline.body x (Saline.tau T) (Saline.pi P) acc e = Ok acc') /\
    Saline.loop x (Saline.tau T) (Saline.pi P) = Ok a /\
    Saline.sums T P S = Ok a /\
    _saline T P S = Ok (Saline.normalise a).
Proof.
  intros HS. destruct (X_pos S HS) as [HX Hpos].
  set (x := sqrt (S / Saline.S_)) in *.
  assert (Hloop : Saline.loop x (Saline.tau T) (Saline.pi P) =
            Ok (fold_left (body_value x (Saline.tau T) (Saline.pi P))
                  (zip4 Saline.I Saline.J Saline.K Saline.G) Saline.acc0)).
  { unfold Saline.loop. by apply for_each_pos. }
  assert (Hsums : Saline.sums T P S =
            Ok (fold_left (body_value x (Saline.tau T) (Saline.pi P))
                  (zip4 Saline.I Saline.J Saline.K Saline.G) Saline.acc0)).
  { unfold Saline.sums. rewrite HX.
    change (Ok x ≫= _) with
      (if Req_dec_T S 0 then Ok Saline.acc0 else Saline.loop x (Saline.tau T) (Saline.pi P)).
    destruct (Req_dec_T S 0); [lra|done]. }
  eexists x, _. split; [done|]. split; [done|]. split; [done|].
  split; [by apply pylog_pos|].
  split. { intros acc e. eexists. by apply body_pos. }
  split; [exact Hloop|]. split; [exact Hsums|].
  unfold _saline. rewrite Hsums. reflexivity.
Qed.

(** Claim C6.  In both evaluators the outputs are the accumulators with
    [g], [gt], [gtt] multiplied by [1e-3] and [gp], [gpp], [gtp] by
    [1e-6]; [gt] and [gtp] divided by 40 and [gtt] by [40^2]; [gp] and
    [gtp] divided by 100 and [gpp] by [100^2]; in the saline evaluator
    [gs] and [gsp] are also divided by [2*S_], and [gsp] by 100. *)
Theorem series_normalisation T P S :
  (let a := WaterSupp.sums T P in
   let d := _waterSupp T P in
   d !! "g" = Some (WaterSupp.g a * 1e-3) /\
   d !! "gt" = Some (WaterSupp.gt a * 1e-3 / 40) /\
   d !! "gtt" = Some (WaterSupp.gtt a * 1e-3 / 40 ^ 2) /\
   d !! "gp" = Some (WaterSupp.gp a * 1e-6 / 100) /\
   d !! "gtp" = Some (WaterSupp.gtp a * 1e-6 / 40 / 100) /\
   d !! "gpp" = Some (WaterSupp.gpp a * 1e-6 / 100 ^ 2) /\
   d !! "gs" = Some 0 /\ d !! "gsp" = Some 0) /\
  match Saline.sums T P S with
  | Ok a =>
      exists d, _saline T P S = Ok d /\
        d !! "g" = Some (Saline.g a * 1e-3) /\
        d !! "gt" = Some (Saline.gt a * 1e-3 / 40) /\
        d !! "gtt" = Some (Saline.gtt a * 1e-3 / 40 ^ 2) /\
        d !! "gp" = Some (Saline.gp a * 1e-6 / 100) /\
        d !! "gtp" = Some (Saline.gtp a * 1e-6 / 40 / 100) /\
        d !! "gpp" = Some (Saline.gpp a * 1e-6 / 100 ^ 2) /\
        d !! "gs" = Some (Saline.gs a * 1e-3 / (2 * Saline.S_)) /\
        d !! "gsp" = Some (Saline.gsp a * 1e-6 / (2 * Saline.S_) / 100)
  | Raise e => _saline T P S = Raise e
  end.
Proof.
  pose proof S_ref_pos as HS_.
  split.
  - cbv zeta.
    destruct (waterSupp_lookup T P) as (-> & -> & -> & -> & -> & -> & -> & ->).
    generalize (WaterSupp.sums T P). intros a.
    repeat split; f_equal; field.
  - unfold _saline. destruct (Saline.sums T P S) as [a|e]; [|reflexivity].
    exists (Saline.normalise a). split; [reflexivity|].
    destruct (normalise_lookup a) as (-> & -> & -> & -> & -> & -> & -> & ->).
    repeat split; f_equal; field; lra.
Qed.

Lemma bind_ret_r {A} (m : result A) : (m ≫= Ok) = m.
Proof. by destruct m. Qed.

Lemma log_entry_ok_j0 gi : log_entry_ok (1%nat, 0%nat, 0%nat, gi).
Proof.
  intros _. split; [lia|]. split; [done|]. intros X tau pi a.
  repeat split; try reflexivity.
Qed.

Lemma log_entry_ok_j1 gi : log_entry_ok (1%nat, 1%nat, 0%nat, gi).
Proof.
  intros _. split; [lia|]. split; [done|]. intros X tau pi a.
  repeat split; try reflexivity.
  unfold Saline.body.
  destruct (Saline.step_g_gs X tau pi 1 1 0 gi a) as [a1|]; [|reflexivity].
  cbn [mbind result_bind].
  destruct (Saline.step_gt X tau pi 1 1 0 gi a1); reflexivity.
Qed.

Lemma log_entry_ok_other i j k gi : i <> 1%nat -> log_entry_ok (i, j, k, gi).
Proof. intros H Hi. done. Qed.

Lemma saline_table_log_entries :
  Forall log_entry_ok (zip4 Saline.I Saline.J Saline.K Saline.G).
Proof.
  cbv [zip4 Saline.I Saline.J Saline.K Saline.G].
  repeat (apply Forall_cons; split;
    [first [apply log_entry_ok_j0 | apply log_entry_ok_j1
           | apply log_entry_ok_other; discriminate]|]).
  apply Forall_nil_2.
Qed.

(** Claim C10.  Every entry of the saline table with [i = 1] has
    [j <= 1] and [k = 0]; the statements for [gp], [gsp], [gtt], [gtp] and
    [gpp] are therefore not executed for it, and the iteration consists
    of the [g], [gs] and [gt] statements alone. *)
Theorem saline_log_entries_only_feed_g_gs_gt i j k gi :
  (i, j, k, gi) ∈ zip4 Saline.I Saline.J Saline.K Saline.G ->
  i = 1%nat ->
  (j <= 1)%nat /\ k = 0%nat /\
  forall X tau pi a,
    Saline.step_gp_gsp X tau pi i j k gi a = Ok a /\
    Saline.step_gtt X tau pi i j k gi a = a /\
    Saline.step_gtp X tau pi i j k gi a = a /\
    Saline.step_gpp X tau pi i j k gi a = a /\
    Saline.body X tau pi a (i, j, k, gi) =
      (a1 ← Saline.step_g_gs X tau pi i j k gi a;
       Saline.step_gt X tau pi i j k gi a1).
Proof.
  intros Hin Hi.
  pose proof saline_table_log_entries as Hall.
  rewrite Forall_forall in Hall. exact (Hall _ Hin Hi).
Qed.

(** Claim C5.  The pure-water set is the fast series exactly when the
    [fast] flag is set and [T <= 313.15]; in every other case, fast mode
    above the threshold included, it is what [_water] returns: no
    exception is raised by the choice itself, and a failure of the
    pure-water formulation is the failure of the call. *)
Theorem pure_water_strategy fast T P :
  (fast = true /\ T <= 313.15 ->
     pure_water eos fast T P = Ok (_waterSupp T P)) /\
  (~ (fast = true /\ T <= 313.15) ->
     pure_water eos fast T P = _water eos T P /\
     forall e, eos T P = Raise e -> pure_water eos fast T P = Raise e).
Proof.
  unfold pure_water. split.
  - intros [-> HT]. by rewrite py_le_true.
  - intros Hn.
    assert (Hc : fast && py_le T 313.15 = false).
    { destruct fast; [|done]. simpl. apply py_le_false. intros HT. by apply Hn. }
    rewrite Hc. split; [done|]. intros e He. unfold _water. by rewrite He.
Qed.

Lemma getattr_class_only self name :
  attrs self !! name = None ->
  getattr self name =
    match SeaWater_attrs !! name with
    | Some v => Ok v
    | None => Raise AttributeError
    end.
Proof. intros H. unfold getattr. by rewrite H. Qed.

Lemma ready_true kw :
  ready kw = true <->
  exists T P S, kw_T kw = Some T /\ T <> 0 /\ kw_P kw = Some P /\ P <> 0 /\
                kw_S kw = Some S.
Proof.
  unfold ready, truth. destruct kw as [[T|] [P|] [S|] fast]; simpl.
  all: repeat (destruct (Req_dec_T _ 0)); simpl; split;
    try discriminate; try (intros (? & ? & ? & ? & ? & ? & ? & ?); congruence).
  all: intros _; by exists T, P, S.
Qed.

(** Claim C8.  A call whose accumulated [T] or [P] is missing (or zero)
    or whose [S] is [None] returns without an exception and without
    evaluating anything: only [kwargs] changes.  A new instance built
    without one of the three keys has no attribute of its own, so
    [status] is [0], [msg] is ["Undefined"] and no property can be read.
    Conversely a call that changed the attributes had all three inputs
    and leaves [status = 1] and an empty [msg]. *)
Theorem call_needs_T_P_S :
  (forall self kw,
     let kw' := update (kwargs self) kw in
     (kw_T kw' = None \/ kw_T kw' = Some 0 \/ kw_P kw' = None \/
      kw_P kw' = Some 0 \/ kw_S kw' = None) ->
     __call__ eos self kw = Ok {| kwargs := kw'; attrs := attrs self |}) /\
  (forall kw,
     upd_T kw = None \/ upd_P kw = None \/ upd_S kw = None ->
     exists self,
       __init__ eos kw = Ok self /\
       kwargs self = update SeaWater_kwargs kw /\
       attrs self = ∅ /\
       getattr self "status" = Ok (VNum 0) /\
       getattr self "msg" = Ok (VStr "Undefined") /\
       forall name, name <> "status"%string -> name <> "msg"%string ->
                    getattr self name = Raise AttributeError) /\
  (forall self kw self',
     __call__ eos self kw = Ok self' ->
     attrs self' <> attrs self ->
     (exists T P S,
        kw_T (kwargs self') = Some T /\ T <> 0 /\
        kw_P (kwargs self') = Some P /\ P <> 0 /\
        kw_S (kwargs self') = Some S) /\
     getattr self' "status" = Ok (VNum 1) /\
     getattr self' "msg" = Ok (VStr "")).
Proof.
  assert (Hskip : forall self kw,
     let kw' := update (kwargs self) kw in
     (kw_T kw' = None \/ kw_T kw' = Some 0 \/ kw_P kw' = None \/
      kw_P kw' = Some 0 \/ kw_S kw' = None) ->
     __call__ eos self kw = Ok {| kwargs := kw'; attrs := attrs self |}).
  { intros self kw kw' Hmiss. unfold __call__. cbn [kwargs].
    fold kw'. change (truth (kw_T kw') && truth (kw_P kw') && bool_decide (kw_S kw' ≠ None))
      with (ready kw').
    destruct (ready kw') eqn:Hr; [|done].
    apply ready_true in Hr as (T & P & S & HT & HT0 & HP & HP0 & HS).
    destruct_or!; congruence. }
  split; [exact Hskip|]. split.
  - intros kw Hmiss. eexists. split.
    { unfold __init__. apply Hskip. cbn [kwargs update SeaWater_kwargs kw_T kw_P kw_S].
      destruct Hmiss as [->| [->| ->]]; simpl; auto. }
    cbn [kwargs attrs]. split; [done|]. split; [done|].
    split; [reflexivity|]. split; [reflexivity|].
    intros name Hn1 Hn2. rewrite getattr_class_only by apply lookup_empty.
    unfold SeaWater_attrs. by rewrite !lookup_insert_ne, lookup_empty by done.
  - intros self kw self' Hcall Hattrs. unfold __call__ in Hcall.
    cbn [kwargs] in Hcall.
    set (kw' := update (kwargs self) kw) in *.
    change (truth (kw_T kw') && truth (kw_P kw') && bool_decide (kw_S kw' ≠ None))
      with (ready kw') in Hcall.
    destruct (ready kw') eqn:Hr.
    + apply bind_Ok in Hcall as (self1 & Hcalc & [= <-]).
      pose proof (calculo_kwargs _ _ Hcalc) as Hk. cbn [setattr kwargs] in Hk.
      split. { cbn [setattr kwargs]. rewrite Hk. by apply ready_true. }
      split.
      * apply getattr_attrs. cbn [setattr attrs].
        rewrite lookup_insert_ne by done.
        rewrite (calculo_frame _ _ "status" Hcalc) by solve_notin.
        cbn [setattr attrs]. apply lookup_insert_eq.
      * apply getattr_attrs. cbn [setattr attrs]. apply lookup_insert_eq.
    + injection Hcall as <-. done.
Qed.

End Properties.

(** ** A concrete evaluation *)

Ltac eval_loop :=
  cbv [fold_left zip3 zip4 WaterSupp.body WaterSupp.J WaterSupp.K WaterSupp.G
       WaterSupp.acc0 WaterSupp.g WaterSupp.gt WaterSupp.gp WaterSupp.gtt
       WaterSupp.gtp WaterSupp.gpp
       body_value pow_sub Saline.I Saline.J Saline.K Saline.G Saline.acc0
       Saline.step_gtt Saline.step_gtp Saline.step_gpp
       Saline.add_g Saline.add_gt Saline.add_gp Saline.add_gtt Saline.add_gtp
       Saline.add_gpp Saline.add_gs Saline.add_gsp
       Saline.g Saline.gt Saline.gp Saline.gtt Saline.gtp Saline.gpp Saline.gs
       Saline.gsp
       Nat.leb Nat.eqb Nat.sub Nat.mul Nat.add andb pow INR].

Lemma water_ref :
  WaterSupp.sums 273.15 0.101325 =
  WaterSupp.Acc 101.342743139674 5.90578347909402 100015.695367145
    (-24715.571866078) (-270.983805184062) (-5089.1530840726).
Proof.
  unfold WaterSupp.sums.
  replace (WaterSupp.tau 273.15) with 0 by (unfold WaterSupp.tau; lra).
  replace (WaterSupp.pi 0.101325) with 0 by (unfold WaterSupp.pi; lra).
  eval_loop.
  f_equal; lra.
Qed.

Lemma saline_ref :
  fold_left (body_value 1 0 0) (zip4 Saline.I Saline.J Saline.K Saline.G) Saline.acc0 =
  Saline.Acc 244.2747376066291 59.2290867797655 (-3129.7954311666691)
    1536.8152689579014 531.1561326972161 656.83624452268578
    5901.2739154462237 (-6061.6298272826888).
Proof.
  eval_loop. rewrite ln_1.
  f_equal; lra.
Qed.

Lemma X_ref : Saline.X Saline.S_ = Ok 1.
Proof.
  unfold Saline.X, pysqrt.
  assert (Saline.S_ <> 0) by (unfold Saline.S_; lra).
  replace (Saline.S_ / Saline.S_) with 1 by (by field).
  destruct (Rle_dec 0 1); [|lra]. by rewrite sqrt_1.
Qed.

Lemma saline_sums_ref :
  Saline.sums 273.15 0.101325 Saline.S_ =
  Ok (Saline.Acc 244.2747376066291 59.2290867797655 (-3129.7954311666691)
        1536.8152689579014 531.1561326972161 656.83624452268578
        5901.2739154462237 (-6061.6298272826888)).
Proof.
  unfold Saline.sums. rewrite X_ref. cbn [mbind result_bind].
  destruct (Req_dec_T Saline.S_ 0) as [HS|_]; [unfold Saline.S_ in HS; lra|].
  unfold Saline.loop. rewrite for_each_pos by lra.
  replace (Saline.tau 273.15) with 0 by (unfold Saline.tau; lra).
  replace (Saline.pi 0.101325) with 0 by (unfold Saline.pi; lra).
  by rewrite saline_ref.
Qed.

Lemma example_run a :
  exists self',
    calculo no_iapws95 {| kwargs := example_kwargs; attrs := a |} = Ok self'.
Proof.
  eapply (calculo_ok no_iapws95 _ 273.15 0.101325 Saline.S_); try done.
  - unfold Saline.S_. lra.
  - simpl. unfold pure_water. rewrite py_le_true by lra. reflexivity.
  - unfold _saline. rewrite saline_sums_ref. reflexivity.
  - unfold _waterSupp. rewrite water_ref.
    cbv [WaterSupp.g WaterSupp.gt WaterSupp.gp WaterSupp.gtt WaterSupp.gtp WaterSupp.gpp
         Saline.normalise Saline.g Saline.gt Saline.gp Saline.gtt Saline.gtp Saline.gpp
         Saline.gs Saline.gsp].
    match goal with
    | |- context [sum_lookup ?pw ?ps] =>
        change pw with (dict8 (101.342743139674 * 1e-3) (5.90578347909402 / 40 * 1e-3)
          (100015.695367145 / 100 * 1e-6) (-24715.571866078 / 40 ^ 2 * 1e-3)
          (-270.983805184062 / 40 / 100 * 1e-6) (-5089.1530840726 / 100 ^ 2 * 1e-6) 0 0)
    end.
    match goal with
    | |- context [sum_lookup _ ?ps] =>
        change ps with (dict8 (244.2747376066291 * 1e-3) (59.2290867797655 / 40 * 1e-3)
          (-3129.7954311666691 / 100 * 1e-6) (1536.8152689579014 / 40 ^ 2 * 1e-3)
          (531.1561326972161 / 40 / 100 * 1e-6) (656.83624452268578 / 100 ^ 2 * 1e-6)
          (5901.2739154462237 / Saline.S_ / 2 * 1e-3)
          (-6061.6298272826888 / Saline.S_ / 2 / 100 * 1e-6))
    end.
    intros g gt gp gtt gtp gpp.
    match goal with
    | |- context [sum_lookup ?pw ?ps] =>
      match pw with dict8 ?a1 ?a2 ?a3 ?a4 ?a5 ?a6 ?a7 ?a8 =>
      match ps with dict8 ?b1 ?b2 ?b3 ?b4 ?b5 ?b6 ?b7 ?b8 =>
        destruct (sum_lookup_dict8 a1 a2 a3 a4 a5 a6 a7 a8 b1 b2 b3 b4 b5 b6 b7 b8)
          as (-> & -> & -> & -> & -> & ->)
      end end
    end.
    intros [= <-] [= <-] [= <-] [= <-] [= <-] [= <-].
    assert (HD : (-270.983805184062 / 40 / 100 * 1e-6 + 531.1561326972161 / 40 / 100 * 1e-6) ^ 2 -
      (-24715.571866078 / 40 ^ 2 * 1e-3 + 1536.8152689579014 / 40 ^ 2 * 1e-3) * 1000 *
      (-5089.1530840726 / 100 ^ 2 * 1e-6 + 656.83624452268578 / 100 ^ 2 * 1e-6) * 1e-6 < 0) by lra.
    split; [lra|]. split; [lra|].
    split; [lra|].
    apply Rlt_le. apply Rdiv_neg_neg; lra.
  - intros _. lra.
Qed.

Lemma saline_log_entries_witness :
  (0 <= 1)%nat /\ 0%nat = 0%nat /\
  forall X tau pi a,
    Saline.step_gp_gsp X tau pi 1 0 0 0.581281456626732e4 a = Ok a /\
    Saline.step_gtt X tau pi 1 0 0 0.581281456626732e4 a = a /\
    Saline.step_gtp X tau pi 1 0 0 0.581281456626732e4 a = a /\
    Saline.step_gpp X tau pi 1 0 0 0.581281456626732e4 a = a /\
    Saline.body X tau pi a (1%nat, 0%nat, 0%nat, 0.581281456626732e4) =
      (a1 ← Saline.step_g_gs X tau pi 1 0 0 0.581281456626732e4 a;
       Saline.step_gt X tau pi 1 0 0 0.581281456626732e4 a1).
Proof.
  apply (saline_log_entries_only_feed_g_gs_gt 1 0 0 0.581281456626732e4).
  - cbv [zip4 Saline.I Saline.J Saline.K Saline.G]. apply list_elem_of_here.
  - reflexivity.
Defined.

(** ** Instances of the theorems at concrete inputs *)

Lemma call_ready (eos : R -> R -> result Water.t) self kw :
  ready (update (kwargs self) kw) = true ->
  __call__ eos self kw =
  (self1 ← calculo eos
     (setattr {| kwargs := update (kwargs self) kw; attrs := attrs self |}
        "status" (VNum 1));
   Ok (setattr self1 "msg" (VStr ""))).
Proof.
  intros Hr. unfold __call__. cbn [kwargs].
  change (truth (kw_T (update (kwargs self) kw))
          && truth (kw_P (update (kwargs self) kw))
          && bool_decide (kw_S (update (kwargs self) kw) ≠ None))
    with (ready (update (kwargs self) kw)).
  by rewrite Hr.
Qed.

Lemma example_ready : ready example_kwargs = true.
Proof.
  apply ready_true. exists 273.15, 0.101325, Saline.S_.
  repeat split; try reflexivity; lra.
Qed.

Lemma example_init :
  exists self1,
    calculo no_iapws95
      {| kwargs := example_kwargs; attrs := <["status" := VNum 1]> ∅ |}
    = Ok self1 /\
    __init__ no_iapws95 example_upd = Ok (setattr self1 "msg" (VStr "")).
Proof.
  destruct (example_run (<["status" := VNum 1]> ∅)) as [self1 H].
  exists self1. split; [exact H|].
  unfold __init__. rewrite call_ready by exact example_ready.
  change (setattr _ "status" (VNum 1))
    with {| kwargs := example_kwargs; attrs := <["status" := VNum 1]> ∅ |}.
  by rewrite H.
Qed.

Lemma calculo_composed_outputs_witness :
  exists self' gp,
    calculo no_iapws95 example_self = Ok self' /\
    getattr self' "gp" = Ok (VNum gp) /\ gp <> 0 /\
    getattr self' "rho" = Ok (VNum (1 / gp)) /\
    getattr self' "v" = Ok (VNum gp).
Proof.
  destruct (example_run ∅) as [self' H].
  destruct (calculo_composed_outputs no_iapws95 example_self self' H)
    as (T & P & g & gt & gp & gtt & gtp & gpp & _ & (_ & _ & Hgp & _)
        & (Hgp0 & _) & Hrho & Hv & _).
  exists self', gp. repeat split; assumption.
Defined.

Lemma calculo_combined_is_keywise_sum_witness :
  exists self' pw ps v x,
    calculo no_iapws95 example_self = Ok self' /\
    pure_water no_iapws95 true 273.15 0.101325 = Ok pw /\
    _saline 273.15 0.101325 Saline.S_ = Ok ps /\
    pw !! "gp" = Some v /\ ps !! "gp" = Some x /\
    getattr self' "gp" = Ok (VNum (v + x)).
Proof.
  destruct (example_run ∅) as [self' H].
  destruct (calculo_combined_is_keywise_sum no_iapws95 example_self self' H)
    as (T & P & S & pw & ps & prop & self1 & self2 & (HT & HP & HS) & Hpw & Hps
        & _ & _ & _ & _ & Hsum).
  cbn in HT, HP, HS. injection HT as <-. injection HP as <-. injection HS as <-.
  destruct (Hsum "gp") as (v & x & Hv & Hx & _ & Hattr).
  { apply (bool_decide_unpack _). by vm_compute. }
  exists self', pw, ps, v, x. repeat split; assumption.
Defined.

Lemma calculo_salinity_outputs_witness :
  exists self' gs gsp gp,
    calculo no_iapws95 example_self = Ok self' /\
    getattr self' "gs" = Ok (VNum gs) /\
    getattr self' "mu" = Ok (VNum gs) /\
    getattr self' "haline" = Ok (VNum (- gsp / gp)).
Proof.
  destruct (example_run ∅) as [self' H].
  destruct (calculo_salinity_outputs no_iapws95 example_self self' H)
    as (T & P & S & (HT & HP & HS) & _ & Hnz).
  cbn in HS. injection HS as <-.
  destruct Hnz as (ps & gsal & g & gp & gs & gsp & _ & (_ & _ & Hgs & _) & Hout).
  { unfold Saline.S_. lra. }
  cbv zeta in Hout. destruct Hout as (_ & Hmu & _ & _ & _ & Hhal).
  exists self', gs, gsp, gp. repeat split; assumption.
Defined.

Lemma calculo_echoes_inputs_witness :
  exists self',
    calculo no_iapws95 example_self = Ok self' /\
    getattr self' "T" = Ok (VNum 273.15) /\
    getattr self' "P" = Ok (VNum 0.101325) /\
    kw_S (kwargs self') = Some Saline.S_.
Proof.
  destruct (example_run ∅) as [self' H].
  destruct (calculo_echoes_inputs no_iapws95 example_self self' H)
    as (T & P & S & (HT & HP & HS) & HaT & HaP & HkS & _).
  cbn in HT, HP, HS. injection HT as <-. injection HP as <-. injection HS as <-.
  exists self'. repeat split; assumption.
Defined.

(** Claim C9 as stated fails: after the evaluation of the example input
    through the constructor, [T] and [P] are attributes of the instance,
    the salinity is in [kwargs], and reading the attribute [S] raises
    [AttributeError]. *)
Lemma salinity_is_not_an_attribute :
  exists self',
    __init__ no_iapws95 example_upd = Ok self' /\
    getattr self' "T" = Ok (VNum 273.15) /\
    getattr self' "P" = Ok (VNum 0.101325) /\
    kw_S (kwargs self') = Some Saline.S_ /\
    getattr self' "S" = Raise AttributeError.
Proof.
  destruct example_init as (self1 & Hcalc & Hinit).
  destruct (calculo_echoes_inputs _ _ _ Hcalc)
    as (T & P & S & (HT & HP & HS) & HaT & HaP & HkS & HaS).
  cbn in HT, HP, HS. injection HT as <-. injection HP as <-. injection HS as <-.
  exists (setattr self1 "msg" (VStr "")). split; [exact Hinit|].
  assert (Hget : forall name, name <> "msg"%string ->
            getattr (setattr self1 "msg" (VStr "")) name = getattr self1 name).
  { intros name Hn. unfold getattr, setattr. cbn [attrs].
    by rewrite lookup_insert_ne by done. }
  rewrite !Hget by done. split; [done|]. split; [done|]. split; [done|].
  rewrite getattr_class_only; [reflexivity|].
  rewrite HaS. reflexivity.
Qed.

Lemma saline_total_for_positive_salinity_witness :
  exists x a,
    Saline.X 1e-30 = Ok x /\ 0 < x /\
    _saline 300 1 1e-30 = Ok (Saline.normalise a).
Proof.
  destruct (saline_total_for_positive_salinity 300 1 1e-30 ltac:(lra))
    as (x & a & HX & _ & Hpos & _ & _ & _ & _ & Hsal).
  exists x, a. repeat split; assumption.
Defined.

Lemma pure_water_strategy_witness :
  pure_water no_iapws95 true 300 1 = Ok (_waterSupp 300 1) /\
  pure_water no_iapws95 true 320 1 = Raise (ExternalError 0) /\
  pure_water no_iapws95 false 300 1 = Raise (ExternalError 0).
Proof.
  split; [|split].
  - apply (pure_water_strategy no_iapws95 true 300 1). split; [reflexivity|lra].
  - apply (pure_water_strategy no_iapws95 true 320 1); [|reflexivity].
    intros [_ H]. lra.
  - apply (pure_water_strategy no_iapws95 false 300 1); [|reflexivity].
    intros [H _]. discriminate.
Defined.

Lemma call_needs_T_P_S_witness :
  exists self,
    __init__ no_iapws95
      {| upd_T := Some (Some 300); upd_P := Some (Some 1); upd_S := None;
         upd_fast := None |} = Ok self /\
    attrs self = ∅ /\
    getattr self "status" = Ok (VNum 0) /\
    getattr self "rho" = Raise AttributeError.
Proof.
  destruct (proj1 (proj2 (call_needs_T_P_S no_iapws95))
              {| upd_T := Some (Some 300); upd_P := Some (Some 1);
                 upd_S := None; upd_fast := None |})
    as (self & Hinit & _ & Hattrs & Hstatus & _ & Hnone).
  { right. right. reflexivity. }
  exists self. split; [exact Hinit|]. split; [exact Hattrs|].
  split; [exact Hstatus|]. apply Hnone; discriminate.
Defined.

(** * Further properties of the code *)

Section CallsAndErrors.
Variable eos : R -> R -> result Water.t.

Lemma pydiv_zero a : pydiv a 0 = Raise ZeroDivisionError.
Proof. unfold pydiv. destruct (Req_dec_T 0 0); [done|lra]. Qed.

(** [_water] returns exactly when [IAPWS95] returns a state with non-zero
    density and sound speed and [T] is non-zero; it then holds the six
    transformed derivatives and [gs = gsp = 0].  A zero density, sound
    speed or temperature raises [ZeroDivisionError], and a failure of
    [IAPWS95] is passed on unchanged. *)
Theorem water_result T P :
  match eos T P with
  | Raise e => _water eos T P = Raise e
  | Ok w =>
      (Water.rho w = 0 \/ T = 0 \/ Water.w w = 0 ->
       _water eos T P = Raise ZeroDivisionError) /\
      (Water.rho w <> 0 -> T <> 0 -> Water.w w <> 0 ->
       _water eos T P =
       Ok (dict8 (Water.h w - T * Water.s w) (- Water.s w) (1 / Water.rho w)
             (- Water.cp w / T) (Water.betas w * Water.cp w / T)
             (- 1e6 / (Water.rho w * Water.w w) ^ 2
              - Water.betas w ^ 2 * 1e3 * Water.cp w / T) 0 0))
  end.
Proof.
  unfold _water. destruct (eos T P) as [w|e]; [|reflexivity].
  cbn [mbind result_bind]. split.
  - intros Hz.
    destruct (Req_dec_T (Water.rho w) 0) as [Hr|Hr].
    { rewrite Hr. rewrite !pydiv_zero; reflexivity. }
    rewrite (pydiv_ne _ (Water.rho w)) by done. cbn [mbind result_bind].
    destruct (Req_dec_T T 0) as [HT|HT].
    { rewrite HT. rewrite !pydiv_zero; reflexivity. }
    rewrite !(pydiv_ne _ T) by done. cbn [mbind result_bind].
    destruct Hz as [Hz|[Hz|Hz]]; try done.
    rewrite Hz. replace ((Water.rho w * 0) ^ 2) with 0 by ring.
    rewrite !pydiv_zero; reflexivity.
  - intros Hr HT Hw.
    assert (Hrw : (Water.rho w * Water.w w) ^ 2 <> 0).
    { apply pow_nonzero. by apply Rmult_integral_contrapositive_currified. }
    rewrite !pydiv_ne by done. reflexivity.
Qed.

(** [S = 1] makes [m = S/(1-S)/Ms] divide by zero: [calculo] raises
    [ZeroDivisionError] before either term is evaluated, and so does the
    call that completes such an input. *)
Theorem calculo_salinity_one self T P :
  kw_T (kwargs self) = Some T -> kw_P (kwargs self) = Some P ->
  kw_S (kwargs self) = Some 1 ->
  calculo eos self = Raise ZeroDivisionError /\
  (T <> 0 -> P <> 0 -> forall self0 kw,
     update (kwargs self0) kw = kwargs self ->
     __call__ eos self0 kw = Raise ZeroDivisionError).
Proof.
  intros HT HP HS.
  assert (Hc : forall self1, kwargs self1 = kwargs self ->
            calculo eos self1 = Raise ZeroDivisionError).
  { intros self1 Hk. unfold calculo. rewrite Hk, HT, HP, HS.
    cbn [num mbind result_bind]. replace (1 - 1) with 0 by ring.
    rewrite !pydiv_zero; reflexivity. }
  split; [by apply Hc|].
  intros HT0 HP0 self0 kw Hk. rewrite call_ready.
  - rewrite Hc; [done|]. cbn [setattr kwargs]. exact Hk.
  - rewrite Hk. apply ready_true. exists T, P, 1. done.
Qed.

Lemma pysqrt_neg x : x < 0 -> pysqrt x = Raise ValueError.
Proof. intros. unfold pysqrt. destruct (Rle_dec 0 x); [lra|done]. Qed.

(** A negative salinity is rejected: [_saline] raises (the square root of
    a negative number), and so does [calculo]. *)
Theorem negative_salinity_raises self T P S :
  kw_T (kwargs self) = Some T -> kw_P (kwargs self) = Some P ->
  kw_S (kwargs self) = Some S -> S < 0 ->
  (exists e, _saline T P S = Raise e) /\
  (exists e, calculo eos self = Raise e).
Proof.
  intros HT HP HS Hneg. pose proof S_ref_pos as H_.
  assert (Hsal : _saline T P S = Raise ValueError).
  { unfold _saline, Saline.sums, Saline.X. rewrite pysqrt_neg; [done|].
    apply Rmult_neg_pos; [done|]. by apply Rinv_0_lt_compat. }
  split; [eauto|].
  unfold calculo. rewrite HT, HP, HS. cbn [num mbind result_bind].
  rewrite pydiv_ne by lra. cbn [mbind result_bind].
  destruct (pure_water eos (kw_fast (kwargs self)) T P) as [pw|e]; [|eauto].
  cbn [mbind result_bind]. rewrite Hsal. eauto.
Qed.

Lemma update_merge kw u1 u2 :
  update (update kw u1) u2 = update kw (merge_upd u1 u2).
Proof.
  destruct kw, u1 as [[?|] [?|] [?|] [?|]], u2 as [[?|] [?|] [?|] [?|]];
    reflexivity.
Qed.

(** Parameters can be given one call at a time: when the first call
    leaves the input incomplete, a second call behaves as a single call
    with both sets of keyword arguments, the later one winning. *)
Theorem call_one_by_one self u1 u2 :
  ready (update (kwargs self) u1) = false ->
  (self1 ← __call__ eos self u1; __call__ eos self1 u2)
  = __call__ eos self (merge_upd u1 u2).
Proof.
  intros Hr.
  assert (H1 : __call__ eos self u1 =
               Ok {| kwargs := update (kwargs self) u1; attrs := attrs self |}).
  { unfold __call__. cbn [kwargs].
    change (truth (kw_T (update (kwargs self) u1))
            && truth (kw_P (update (kwargs self) u1))
            && bool_decide (kw_S (update (kwargs self) u1) ≠ None))
      with (ready (update (kwargs self) u1)).
    by rewrite Hr. }
  rewrite H1. cbn [mbind result_bind].
  unfold __call__. cbn [kwargs attrs]. by rewrite update_merge.
Qed.

(** The loop [for key in pw] returns when every key of [pw] is a key of
    [ps]: the sum then has exactly the keys of [pw] (keys of [ps] alone are
    ignored).  It raises [KeyError] when a key of [pw] is missing from
    [ps]. *)
Theorem sum_sets_key_error (pw ps : gmap string R) self :
  ((forall key, is_Some (pw !! key) -> is_Some (ps !! key)) ->
   exists prop self',
     sum_sets pw ps self = Ok (prop, self') /\
     dom prop = dom pw /\
     forall key v, pw !! key = Some v ->
       exists x, ps !! key = Some x /\ prop !! key = Some (v + x) /\
                 attrs self' !! key = Some (VNum (v + x))) /\
  ((exists key, is_Some (pw !! key) /\ ps !! key = None) ->
   sum_sets pw ps self = Raise KeyError).
Proof.
  pose proof (sum_sets_spec pw ps self) as Hspec. split.
  - intros Hsub. destruct (sum_sets pw ps self) as [[prop self']|e].
    + cbn in Hspec. destruct Hspec as (_ & _ & Hprop & Hattr).
      exists prop, self'. split; [done|]. split.
      * apply set_eq. intros key. rewrite !elem_of_dom, Hprop.
        unfold sum_lookup. split.
        -- destruct (pw !! key); [eauto|]. by intros [? [=]].
        -- intros Hk. destruct (Hsub key Hk) as [x ->].
           destruct Hk as [v ->]. eauto.
      * intros key v Hv. destruct (Hsub key (mk_is_Some _ _ Hv)) as [x Hx].
        exists x. rewrite Hprop, Hattr. unfold sum_lookup. by rewrite Hv, Hx.
    + cbn in Hspec. destruct Hspec as (_ & key & Hk & Hnone).
      apply Hsub in Hk. rewrite Hnone in Hk. by destruct Hk.
  - intros (key & Hk & Hnone). destruct (sum_sets pw ps self) as [[prop self']|e].
    + cbn in Hspec. destruct Hspec as (_ & Hsub & _).
      destruct Hk as [v Hv]. apply Hsub in Hv. rewrite Hnone in Hv. by destruct Hv.
    + cbn in Hspec. by destruct Hspec as (-> & _).
Qed.
End CallsAndErrors.

Section Outputs.
Variable eos : R -> R -> result Water.t.

Lemma VNum_inj x y : Ok (VNum x) = Ok (VNum y) -> x = y.
Proof. by intros [= ->]. Qed.

(** The outputs of [calculo] are consistent with one another:
    [rho * v = 1], [h = g + T*s], [u = h - 1000*P*v] and [a = u - T*s]. *)
Theorem calculo_output_identities self self' :
  calculo eos self = Ok self' ->
  exists T P g rho v s h u a,
    (kw_T (kwargs self) = Some T /\ kw_P (kwargs self) = Some P) /\
    (getattr self' "g" = Ok (VNum g) /\ getattr self' "rho" = Ok (VNum rho) /\
     getattr self' "v" = Ok (VNum v) /\ getattr self' "s" = Ok (VNum s) /\
     getattr self' "h" = Ok (VNum h) /\ getattr self' "u" = Ok (VNum u) /\
     getattr self' "a" = Ok (VNum a)) /\
    rho * v = 1 /\
    h = g + T * s /\
    u = h - 1000 * P * v /\
    a = u - T * s.
Proof.
  intros H.
  destruct (calculo_composed_outputs eos self self' H)
    as (T & P & g & gt & gp & gtt & gtp & gpp & HTP & (Hg & _) & (Hgp0 & _)
        & Hrho & Hv & Hs & _ & Hh & Hu & Ha & _).
  exists T, P, g, (1 / gp), gp, (- gt), (g - T * gt),
    (g - T * gt - 1000 * P * gp), (g - 1000 * P * gp).
  split; [done|]. split; [by repeat split|].
  split; [by field|]. repeat split; ring.
Qed.

(** [calculo] leaves [kwargs] alone, sets each of its 27 attributes and
    changes no other attribute of the instance. *)
Theorem calculo_writes_only_its_attributes self self' :
  calculo eos self = Ok self' ->
  kwargs self' = kwargs self /\
  (forall name, name ∈ calculo_names -> is_Some (attrs self' !! name)) /\
  (forall name, name ∉ calculo_names -> attrs self' !! name = attrs self !! name).
Proof.
  intros H. split; [by eapply calculo_kwargs|]. split; [|intros; by eapply calculo_frame].
  pose proof (calculo_composed_outputs eos self self' H)
    as (T & P & g & gt & gp & gtt & gtp & gpp & _ & _ & _ & Hd).
  pose proof (calculo_combined_is_keywise_sum eos self self' H)
    as (T1 & P1 & S1 & pw & ps & prop & s1 & s2 & _ & _ & _ & _ & _ & _ & _ & Hsum).
  pose proof (calculo_echoes_inputs eos self self' H)
    as (T2 & P2 & S2 & _ & HaT & HaP & _).
  pose proof (calculo_salinity_outputs eos self self' H)
    as (T3 & P3 & S3 & _ & Hz & Hnz).
  assert (Hget : forall name v, getattr self' name = Ok v ->
            name <> "status"%string -> name <> "msg"%string ->
            is_Some (attrs self' !! name)).
  { intros name v Hg Hn1 Hn2. unfold getattr in Hg.
    destruct (attrs self' !! name); [eauto|].
    unfold SeaWater_attrs in Hg.
    rewrite !lookup_insert_ne, lookup_empty in Hg by done. discriminate. }
  intros name Hin. unfold calculo_names in Hin.
  rewrite !elem_of_app in Hin. destruct Hin as [Hin|[Hin|Hin]].
  - destruct (Hsum name Hin) as (v & x & _ & _ & _ & Hattr).
    unfold keys8 in Hin. rewrite !elem_of_cons, elem_of_nil in Hin.
    destruct_or!; subst; try done; by eapply Hget.
  - unfold derived_names in Hin. rewrite !elem_of_cons, elem_of_nil in Hin.
    destruct Hd as (? & ? & ? & ? & ? & ? & ? & ? & ? & ? & ? & ?).
    destruct_or!; subst; try done; by eapply Hget.
  - unfold salinity_names in Hin. rewrite !elem_of_cons, elem_of_nil in Hin.
    destruct (Req_dec_T S3 0) as [HS|HS].
    + destruct (Hz HS) as (? & ? & ? & ? & ?).
      destruct_or!; subst; try done; by eapply Hget.
    + destruct (Hnz HS) as (? & ? & ? & ? & ? & ? & _ & _ & Hout).
      cbv zeta in Hout. destruct Hout as (_ & ? & ? & ? & ? & ?).
      destruct_or!; subst; try done; by eapply Hget.
Qed.
End Outputs.

Ltac by_computation := apply (bool_decide_unpack _); by vm_compute.

Section PureWaterRoundTrip.
Variable eos : R -> R -> result Water.t.

Lemma calculo_values self self' T P S a1 a2 a3 a4 a5 a6 a7 a8 b1 b2 b3 b4 b5 b6 b7 b8 :
  calculo eos self = Ok self' ->
  kw_T (kwargs self) = Some T -> kw_P (kwargs self) = Some P ->
  kw_S (kwargs self) = Some S ->
  pure_water eos (kw_fast (kwargs self)) T P = Ok (dict8 a1 a2 a3 a4 a5 a6 a7 a8) ->
  _saline T P S = Ok (dict8 b1 b2 b3 b4 b5 b6 b7 b8) ->
  getattr self' "g" = Ok (VNum (a1 + b1)) /\
  getattr self' "gt" = Ok (VNum (a2 + b2)) /\
  getattr self' "gp" = Ok (VNum (a3 + b3)) /\
  getattr self' "gtt" = Ok (VNum (a4 + b4)) /\
  getattr self' "gtp" = Ok (VNum (a5 + b5)) /\
  getattr self' "gpp" = Ok (VNum (a6 + b6)) /\
  getattr self' "gs" = Ok (VNum (a7 + b7)) /\
  getattr self' "gsp" = Ok (VNum (a8 + b8)).
Proof.
  intros H HT HP HS Hpw Hps.
  destruct (calculo_combined_is_keywise_sum eos self self' H)
    as (T1 & P1 & S1 & pw & ps & prop & s1 & s2 & (HT1 & HP1 & HS1) & Hpw1 & Hps1
        & _ & _ & _ & _ & Hsum).
  rewrite HT in HT1. rewrite HP in HP1. rewrite HS in HS1.
  injection HT1 as <-. injection HP1 as <-. injection HS1 as <-.
  rewrite Hpw in Hpw1. rewrite Hps in Hps1.
  injection Hpw1 as <-. injection Hps1 as <-.
  destruct (dict8_lookup a1 a2 a3 a4 a5 a6 a7 a8) as (A1 & A2 & A3 & A4 & A5 & A6 & A7 & A8).
  destruct (dict8_lookup b1 b2 b3 b4 b5 b6 b7 b8) as (B1 & B2 & B3 & B4 & B5 & B6 & B7 & B8).
  cbv zeta in *.
  repeat split.
  all: match goal with |- getattr _ ?key = _ =>
         destruct (Hsum key ltac:(by_computation)) as (v & x & Hv & Hx & _ & ->)
       end; congruence.
Qed.

(** At zero salinity, outside fast mode, [calculo] gives back the state of
    [IAPWS95]: density, entropy, enthalpy, heat capacity, [betas] and the
    sound speed are those of the pure-water state (for positive density
    and sound speed and non-zero [T] and [cp]). *)
Theorem zero_salinity_reproduces_pure_water self T P w :
  kw_T (kwargs self) = Some T -> kw_P (kwargs self) = Some P ->
  kw_S (kwargs self) = Some 0 ->
  ~ (kw_fast (kwargs self) = true /\ T <= 313.15) ->
  eos T P = Ok w ->
  T <> 0 -> 0 < Water.rho w -> 0 < Water.w w -> Water.cp w <> 0 ->
  exists self',
    calculo eos self = Ok self' /\
    getattr self' "rho" = Ok (VNum (Water.rho w)) /\
    getattr self' "v" = Ok (VNum (1 / Water.rho w)) /\
    getattr self' "s" = Ok (VNum (Water.s w)) /\
    getattr self' "h" = Ok (VNum (Water.h w)) /\
    getattr self' "cp" = Ok (VNum (Water.cp w)) /\
    getattr self' "betas" = Ok (VNum (Water.betas w)) /\
    getattr self' "w" = Ok (VNum (Water.w w)).
Proof.
  intros HT HP HS Hslow Heos HT0 Hrho Hw Hcp.
  set (rho := Water.rho w) in *. set (ww := Water.w w) in *.
  set (cp := Water.cp w) in *. set (betas := Water.betas w) in *.
  assert (Hpw : pure_water eos (kw_fast (kwargs self)) T P =
    Ok (dict8 (Water.h w - T * Water.s w) (- Water.s w) (1 / rho)
          (- cp / T) (betas * cp / T)
          (- 1e6 / (rho * ww) ^ 2 - betas ^ 2 * 1e3 * cp / T) 0 0)).
  { destruct (pure_water_strategy eos (kw_fast (kwargs self)) T P) as [_ Hd].
    destruct (Hd Hslow) as [-> _].
    pose proof (water_result eos T P) as Hwr. rewrite Heos in Hwr.
    apply Hwr; subst rho ww; lra. }
  assert (Hps : _saline T P 0 =
    Ok (dict8 (0 * 1e-3) (0 / 40 * 1e-3) (0 / 100 * 1e-6) (0 / 40 ^ 2 * 1e-3)
          (0 / 40 / 100 * 1e-6) (0 / 100 ^ 2 * 1e-6) (0 / Saline.S_ / 2 * 1e-3)
          (0 / Saline.S_ / 2 / 100 * 1e-6))).
  { destruct (saline_zero_salinity T P) as (ps & Hps & _ & _ & _ & Hsums & _).
    unfold _saline in *. rewrite Hsums in *. cbn [mbind result_bind] in *.
    by rewrite normalise_dict8. }
  assert (Hrw : rho * ww <> 0) by (apply Rmult_integral_contrapositive_currified; lra).
  assert (HD : (betas * cp / T + 0 / 40 / 100 * 1e-6) ^ 2 -
                  (- cp / T + 0 / 40 ^ 2 * 1e-3) * 1000 *
                  (- 1e6 / (rho * ww) ^ 2 - betas ^ 2 * 1e3 * cp / T + 0 / 100 ^ 2 * 1e-6) * 1e-6
               = - (1000 * cp / T) / (rho * ww) ^ 2).
  { field. repeat split; lra. }
  assert (Hrad : (- cp / T + 0 / 40 ^ 2 * 1e-3) * 1000 /
                 ((betas * cp / T + 0 / 40 / 100 * 1e-6) ^ 2 -
                  (- cp / T + 0 / 40 ^ 2 * 1e-3) * 1000 *
                  (- 1e6 / (rho * ww) ^ 2 - betas ^ 2 * 1e3 * cp / T + 0 / 100 ^ 2 * 1e-6) * 1e-6)
                 = (rho * ww) ^ 2).
  { rewrite HD. field. repeat split; lra. }
  assert (Hconds :
    (betas * cp / T + 0 / 40 / 100 * 1e-6) ^ 2 -
    (- cp / T + 0 / 40 ^ 2 * 1e-3) * 1000 *
    (- 1e6 / (rho * ww) ^ 2 - betas ^ 2 * 1e3 * cp / T + 0 / 100 ^ 2 * 1e-6) * 1e-6 <> 0 /\
    0 <= (- cp / T + 0 / 40 ^ 2 * 1e-3) * 1000 /
         ((betas * cp / T + 0 / 40 / 100 * 1e-6) ^ 2 -
          (- cp / T + 0 / 40 ^ 2 * 1e-3) * 1000 *
          (- 1e6 / (rho * ww) ^ 2 - betas ^ 2 * 1e3 * cp / T + 0 / 100 ^ 2 * 1e-6) * 1e-6)).
  { rewrite Hrad. rewrite HD. split.
    - intros H0. unfold Rdiv in H0.
      apply Rmult_integral in H0 as [H0|H0].
      + assert (H1 : cp * / T = 0) by lra.
        apply Rmult_integral in H1 as [?|H1]; [done|].
        revert H1. by apply Rinv_neq_0_compat.
      + revert H0. apply Rinv_neq_0_compat. by apply pow_nonzero.
    - apply pow2_ge_0. }
  destruct (calculo_ok eos self T P 0 _ _ HT HP HS ltac:(lra) Hpw Hps) as [self' Hrun].
  { intros g gt gp gtt gtp gpp.
    match goal with
    | |- context [sum_lookup (dict8 ?x1 ?x2 ?x3 ?x4 ?x5 ?x6 ?x7 ?x8)
                    (dict8 ?y1 ?y2 ?y3 ?y4 ?y5 ?y6 ?y7 ?y8)] =>
        destruct (sum_lookup_dict8 x1 x2 x3 x4 x5 x6 x7 x8 y1 y2 y3 y4 y5 y6 y7 y8)
          as (-> & -> & -> & -> & -> & ->)
    end.
    intros [= <-] [= <-] [= <-] [= <-] [= <-] [= <-].
    split. { intros H0. apply (Rinv_neq_0_compat rho); lra. }
    split. { intros H0. apply Hcp. apply (Rmult_eq_reg_r (/ T)); [|by apply Rinv_neq_0_compat].
             unfold Rdiv in H0. lra. }
    exact Hconds. }
  { intros Hne. lra. }
  exists self'. split; [exact Hrun|].
  destruct (calculo_values self self' T P 0 _ _ _ _ _ _ _ _ _ _ _ _ _ _ _ _
              Hrun HT HP HS Hpw Hps)
    as (Vg & Vgt & Vgp & Vgtt & Vgtp & Vgpp & _).
  destruct (calculo_composed_outputs eos self self' Hrun)
    as (T1 & P1 & g & gt & gp & gtt & gtp & gpp & (HT1 & HP1) & (Hg & Hgt & Hgp & Hgtt & Hgtp & Hgpp)
        & (Hgp0 & Hgtt0 & HD0) & Hrho' & Hv' & Hs' & Hcp' & Hh' & _ & _ & _ & Hbetas' & _ & _ & Hw').
  rewrite HT in HT1. rewrite HP in HP1. injection HT1 as <-. injection HP1 as <-.
  rewrite Vg in Hg. rewrite Vgt in Hgt. rewrite Vgp in Hgp. rewrite Vgtt in Hgtt.
  rewrite Vgtp in Hgtp. rewrite Vgpp in Hgpp.
  apply VNum_inj in Hg, Hgt, Hgp, Hgtt, Hgtp, Hgpp. subst g gt gp gtt gtp gpp.
  rewrite Hrho', Hv', Hs', Hcp', Hh', Hbetas', Hw'.
  replace (1000 * (- cp / T + 0 / 40 ^ 2 * 1e-3)) with ((- cp / T + 0 / 40 ^ 2 * 1e-3) * 1000) by ring.
  rewrite Hrad. rewrite sqrt_pow2 by (apply Rlt_le, Rmult_lt_0_compat; lra).
  repeat split; do 2 f_equal; field; lra.
Qed.
End PureWaterRoundTrip.

Lemma derivable_pt_lim_eq f x l l' :
  derivable_pt_lim f x l -> l = l' -> derivable_pt_lim f x l'.
Proof. by intros H <-. Qed.

Lemma derivable_pt_lim_Rsum {A} (f : R -> A -> R) (f' : A -> R) l x :
  Forall (fun e => derivable_pt_lim (fun t => f t e) x (f' e)) l ->
  derivable_pt_lim (fun t => Rsum (f t) l) x (Rsum f' l).
Proof.
  induction 1 as [|e l He Hl IH]; simpl.
  - apply (derivable_pt_lim_const 0).
  - apply (derivable_pt_lim_plus (fun t => f t e) (fun t => Rsum (f t) l)); done.
Qed.

Lemma derivable_pt_lim_affine_pow a s j x :
  s <> 0 ->
  derivable_pt_lim (fun t => ((t - a) / s) ^ j) x
    (INR j * ((x - a) / s) ^ (j - 1) / s).
Proof.
  intros Hs.
  assert (Hin : derivable_pt_lim (fun t => (t - a) / s) x (/ s)).
  { eapply derivable_pt_lim_eq.
    - apply (derivable_pt_lim_ext (mult_real_fct (/ s) (id - fct_cte a)%F)).
      + intros z. unfold mult_real_fct, minus_fct, id, fct_cte. field. done.
      + apply derivable_pt_lim_scal. apply derivable_pt_lim_minus.
        * apply derivable_pt_lim_id.
        * apply derivable_pt_lim_const.
    - ring. }
  eapply derivable_pt_lim_eq.
  - apply (derivable_pt_lim_ext (comp (fun y => y ^ j) (fun t => (t - a) / s))).
    + intros z. reflexivity.
    + apply derivable_pt_lim_comp; [exact Hin|]. apply derivable_pt_lim_pow.
  - replace (pred j) with (j - 1)%nat by lia. unfold Rdiv. ring.
Qed.

Lemma derivable_pt_lim_monomial c q a s j x :
  s <> 0 ->
  derivable_pt_lim (fun t => c * ((t - a) / s) ^ j * q) x
    (c * INR j * ((x - a) / s) ^ (j - 1) * q / s).
Proof.
  intros Hs. eapply derivable_pt_lim_eq.
  - apply (derivable_pt_lim_ext (mult_real_fct (c * q) (fun t => ((t - a) / s) ^ j))).
    + intros z. unfold mult_real_fct. ring.
    + apply derivable_pt_lim_scal. by apply derivable_pt_lim_affine_pow.
  - unfold Rdiv. ring.
Qed.

Lemma fold_left_Rsum {A B} (step : B -> A -> B) (f : B -> R) (b0 : B) :
  (forall b e, f (step b e) = f b + f (step b0 e) - f b0) ->
  forall l b, f (fold_left step l b) = f b + Rsum (fun e => f (step b0 e) - f b0) l.
Proof.
  intros Hadd. induction l as [|e l IH]; intros b; simpl; [ring|].
  rewrite IH, Hadd. ring.
Qed.

Lemma Rsum_ext {A} (f g : A -> R) l :
  (forall e, f e = g e) -> Rsum f l = Rsum g l.
Proof. intros H. induction l; simpl; [done|]. by rewrite H, IHl. Qed.

Lemma Rsum_scal {A} (f : A -> R) c l :
  Rsum (fun e => f e * c) l = Rsum f l * c.
Proof. induction l; simpl; [ring|]. rewrite IHl. ring. Qed.

Lemma supp_sums_Rsum (f : WaterSupp.acc -> R) tau pi l :
  f WaterSupp.acc0 = 0 ->
  (forall b e, f (WaterSupp.body tau pi b e)
               = f b + f (WaterSupp.body tau pi WaterSupp.acc0 e)) ->
  f (fold_left (WaterSupp.body tau pi) l WaterSupp.acc0)
  = Rsum (fun e => f (WaterSupp.body tau pi WaterSupp.acc0 e)) l.
Proof.
  intros H0 Hadd.
  rewrite (fold_left_Rsum (WaterSupp.body tau pi) f WaterSupp.acc0).
  - rewrite H0. rewrite Rplus_0_l. apply Rsum_ext. intros e. ring.
  - intros b e. rewrite Hadd, H0. ring.
Qed.

Ltac supp_additive :=
  intros b [[j k] gi]; cbn;
  repeat match goal with |- context [if ?c then _ else _] => destruct c end;
  ring.

Lemma supp_g_sum tau pi l :
  WaterSupp.g (fold_left (WaterSupp.body tau pi) l WaterSupp.acc0)
  = Rsum (fun e => WaterSupp.g (WaterSupp.body tau pi WaterSupp.acc0 e)) l.
Proof. apply supp_sums_Rsum; [reflexivity|supp_additive]. Qed.

Lemma supp_gt_sum tau pi l :
  WaterSupp.gt (fold_left (WaterSupp.body tau pi) l WaterSupp.acc0)
  = Rsum (fun e => WaterSupp.gt (WaterSupp.body tau pi WaterSupp.acc0 e)) l.
Proof. apply supp_sums_Rsum; [reflexivity|supp_additive]. Qed.

Lemma supp_gp_sum tau pi l :
  WaterSupp.gp (fold_left (WaterSupp.body tau pi) l WaterSupp.acc0)
  = Rsum (fun e => WaterSupp.gp (WaterSupp.body tau pi WaterSupp.acc0 e)) l.
Proof. apply supp_sums_Rsum; [reflexivity|supp_additive]. Qed.

Lemma supp_gtt_sum tau pi l :
  WaterSupp.gtt (fold_left (WaterSupp.body tau pi) l WaterSupp.acc0)
  = Rsum (fun e => WaterSupp.gtt (WaterSupp.body tau pi WaterSupp.acc0 e)) l.
Proof. apply supp_sums_Rsum; [reflexivity|supp_additive]. Qed.

Lemma supp_gtp_sum tau pi l :
  WaterSupp.gtp (fold_left (WaterSupp.body tau pi) l WaterSupp.acc0)
  = Rsum (fun e => WaterSupp.gtp (WaterSupp.body tau pi WaterSupp.acc0 e)) l.
Proof. apply supp_sums_Rsum; [reflexivity|supp_additive]. Qed.

Lemma supp_gpp_sum tau pi l :
  WaterSupp.gpp (fold_left (WaterSupp.body tau pi) l WaterSupp.acc0)
  = Rsum (fun e => WaterSupp.gpp (WaterSupp.body tau pi WaterSupp.acc0 e)) l.
Proof. apply supp_sums_Rsum; [reflexivity|supp_additive]. Qed.

(** Derivatives of one term with respect to the temperature. *)
Lemma supp_entry_dT e T P :
  let b t := WaterSupp.body (WaterSupp.tau t) (WaterSupp.pi P) WaterSupp.acc0 e in
  derivable_pt_lim (fun t => WaterSupp.g (b t)) T (WaterSupp.gt (b T) / 40) /\
  derivable_pt_lim (fun t => WaterSupp.gt (b t)) T (WaterSupp.gtt (b T) / 40) /\
  derivable_pt_lim (fun t => WaterSupp.gp (b t)) T (WaterSupp.gtp (b T) / 40).
Proof.
  destruct e as [[j k] gi]. cbv zeta. unfold WaterSupp.tau.
  set (p := WaterSupp.pi P).
  assert (H40 : (40 : R) <> 0) by lra.
  split; [|split].
  - eapply derivable_pt_lim_eq.
    + apply (derivable_pt_lim_ext
               (fun t => gi * ((t - 273.15) / 40) ^ j * p ^ k)).
      * intros z. cbn. ring.
      * by apply derivable_pt_lim_monomial.
    + cbn. destruct j as [|j]; cbn [Nat.leb INR]; [unfold Rdiv; ring|].
      unfold Rdiv. ring.
  - destruct j as [|j].
    { eapply derivable_pt_lim_eq; [apply (derivable_pt_lim_const 0)|].
      cbn. unfold Rdiv. ring. }
    eapply derivable_pt_lim_eq.
    + apply (derivable_pt_lim_ext
               (fun t => gi * INR (S j) * ((t - 273.15) / 40) ^ (S j - 1) * p ^ k)).
      * intros z. cbn [WaterSupp.body WaterSupp.gt WaterSupp.acc0 Nat.leb]. ring.
      * by apply derivable_pt_lim_monomial.
    + cbn [WaterSupp.body WaterSupp.gtt WaterSupp.acc0].
      destruct j as [|j]; cbn [Nat.leb].
      * cbn. unfold Rdiv. ring.
      * rewrite mult_INR.
        replace (S (S j) - 1 - 1)%nat with (S (S j) - 2)%nat by lia.
        unfold Rdiv. ring.
  - destruct k as [|k].
    { eapply derivable_pt_lim_eq; [apply (derivable_pt_lim_const 0)|].
      cbn. rewrite andb_false_r. unfold Rdiv. ring. }
    eapply derivable_pt_lim_eq.
    + apply (derivable_pt_lim_ext
               (fun t => INR (S k) * gi * ((t - 273.15) / 40) ^ j * p ^ (S k - 1))).
      * intros z. cbn [WaterSupp.body WaterSupp.gp WaterSupp.acc0 Nat.leb]. ring.
      * by apply derivable_pt_lim_monomial.
    + cbn [WaterSupp.body WaterSupp.gtp WaterSupp.acc0].
      destruct j as [|j]; cbn [Nat.leb andb].
      * cbn. unfold Rdiv. ring.
      * rewrite mult_INR. unfold Rdiv. ring.
Qed.

(** Derivatives of one term with respect to the pressure. *)
Lemma supp_entry_dP e T P :
  let b p := WaterSupp.body (WaterSupp.tau T) (WaterSupp.pi p) WaterSupp.acc0 e in
  derivable_pt_lim (fun p => WaterSupp.g (b p)) P (WaterSupp.gp (b P) / 100) /\
  derivable_pt_lim (fun p => WaterSupp.gp (b p)) P (WaterSupp.gpp (b P) / 100) /\
  derivable_pt_lim (fun p => WaterSupp.gt (b p)) P (WaterSupp.gtp (b P) / 100).
Proof.
  destruct e as [[j k] gi]. cbv zeta. unfold WaterSupp.pi.
  set (t := WaterSupp.tau T).
  assert (H100 : (100 : R) <> 0) by lra.
  split; [|split].
  - eapply derivable_pt_lim_eq.
    + apply (derivable_pt_lim_ext
               (fun p => (gi * t ^ j) * ((p - 0.101325) / 100) ^ k * 1)).
      * intros z. cbn. ring.
      * by apply derivable_pt_lim_monomial.
    + cbn. destruct k as [|k]; cbn [Nat.leb INR]; unfold Rdiv; ring.
  - destruct k as [|k].
    { eapply derivable_pt_lim_eq; [apply (derivable_pt_lim_const 0)|].
      cbn. unfold Rdiv. ring. }
    eapply derivable_pt_lim_eq.
    + apply (derivable_pt_lim_ext
               (fun p => (INR (S k) * gi * t ^ j) * ((p - 0.101325) / 100) ^ (S k - 1) * 1)).
      * intros z. cbn [WaterSupp.body WaterSupp.gp WaterSupp.acc0 Nat.leb]. ring.
      * by apply derivable_pt_lim_monomial.
    + cbn [WaterSupp.body WaterSupp.gpp WaterSupp.acc0].
      destruct k as [|k]; cbn [Nat.leb].
      * cbn. unfold Rdiv. ring.
      * rewrite mult_INR.
        replace (S (S k) - 1 - 1)%nat with (S (S k) - 2)%nat by lia.
        unfold Rdiv. ring.
  - destruct j as [|j].
    { eapply derivable_pt_lim_eq; [apply (derivable_pt_lim_const 0)|].
      cbn. unfold Rdiv. ring. }
    eapply derivable_pt_lim_eq.
    + apply (derivable_pt_lim_ext
               (fun p => (gi * INR (S j) * t ^ (S j - 1)) * ((p - 0.101325) / 100) ^ k * 1)).
      * intros z. cbn [WaterSupp.body WaterSupp.gt WaterSupp.acc0 Nat.leb]. ring.
      * by apply derivable_pt_lim_monomial.
    + cbn [WaterSupp.body WaterSupp.gtp WaterSupp.acc0].
      destruct k as [|k]; cbn [Nat.leb andb].
      * cbn. unfold Rdiv. ring.
      * rewrite mult_INR. unfold Rdiv. ring.
Qed.

Lemma derivable_pt_lim_scale f x l c :
  derivable_pt_lim f x l -> derivable_pt_lim (fun t => f t * c) x (l * c).
Proof.
  intros H. eapply derivable_pt_lim_eq.
  - apply (derivable_pt_lim_ext (mult_real_fct c f)).
    + intros z. unfold mult_real_fct. ring.
    + by apply derivable_pt_lim_scal.
  - ring.
Qed.

Lemma waterSupp_item T P :
  item (_waterSupp T P) "g" = WaterSupp.g (WaterSupp.sums T P) * 1e-3 /\
  item (_waterSupp T P) "gt" = WaterSupp.gt (WaterSupp.sums T P) / 40 * 1e-3 /\
  item (_waterSupp T P) "gp" = WaterSupp.gp (WaterSupp.sums T P) / 100 * 1e-6 /\
  item (_waterSupp T P) "gtt" = WaterSupp.gtt (WaterSupp.sums T P) / 40 ^ 2 * 1e-3 /\
  item (_waterSupp T P) "gtp" = WaterSupp.gtp (WaterSupp.sums T P) / 40 / 100 * 1e-6 /\
  item (_waterSupp T P) "gpp" = WaterSupp.gpp (WaterSupp.sums T P) / 100 ^ 2 * 1e-6.
Proof.
  unfold item.
  destruct (waterSupp_lookup T P) as (-> & -> & -> & -> & -> & -> & _).
  by repeat split.
Qed.

(** The derivative of a sum over a table, from the derivatives of its
    terms. *)
Lemma fold_derivative {A B} (step : R -> B -> A -> B) (b0 : B) (f f' : B -> R)
  (c : R) (l : list A) (x : R) :
  (forall t l, f (fold_left (step t) l b0)
               = Rsum (fun e => f (step t b0 e)) l) ->
  (forall l, f' (fold_left (step x) l b0)
             = Rsum (fun e => f' (step x b0 e)) l) ->
  (forall e, derivable_pt_lim (fun t => f (step t b0 e)) x (f' (step x b0 e) / c)) ->
  derivable_pt_lim (fun t => f (fold_left (step t) l b0)) x
    (f' (fold_left (step x) l b0) / c).
Proof.
  intros Hf Hf' He. eapply derivable_pt_lim_eq.
  - apply (derivable_pt_lim_ext (fun t => Rsum (fun e => f (step t b0 e)) l)).
    + intros z. symmetry. apply Hf.
    + apply (derivable_pt_lim_Rsum (fun t e => f (step t b0 e))
               (fun e => f' (step x b0 e) / c)).
      apply Forall_forall. intros e _. apply He.
  - rewrite Hf'. unfold Rdiv. apply Rsum_scal.
Qed.

Lemma supp_fold_dT l T P :
  let s t := fold_left (WaterSupp.body (WaterSupp.tau t) (WaterSupp.pi P)) l
               WaterSupp.acc0 in
  derivable_pt_lim (fun t => WaterSupp.g (s t)) T (WaterSupp.gt (s T) / 40) /\
  derivable_pt_lim (fun t => WaterSupp.gt (s t)) T (WaterSupp.gtt (s T) / 40) /\
  derivable_pt_lim (fun t => WaterSupp.gp (s t)) T (WaterSupp.gtp (s T) / 40).
Proof.
  cbv zeta. split; [|split].
  - apply (fold_derivative
             (fun t => WaterSupp.body (WaterSupp.tau t) (WaterSupp.pi P))
             WaterSupp.acc0 WaterSupp.g WaterSupp.gt 40 l T).
    + intros t l'. apply supp_g_sum.
    + intros l'. apply supp_gt_sum.
    + intros e. apply (supp_entry_dT e T P).
  - apply (fold_derivative
             (fun t => WaterSupp.body (WaterSupp.tau t) (WaterSupp.pi P))
             WaterSupp.acc0 WaterSupp.gt WaterSupp.gtt 40 l T).
    + intros t l'. apply supp_gt_sum.
    + intros l'. apply supp_gtt_sum.
    + intros e. apply (supp_entry_dT e T P).
  - apply (fold_derivative
             (fun t => WaterSupp.body (WaterSupp.tau t) (WaterSupp.pi P))
             WaterSupp.acc0 WaterSupp.gp WaterSupp.gtp 40 l T).
    + intros t l'. apply supp_gp_sum.
    + intros l'. apply supp_gtp_sum.
    + intros e. apply (supp_entry_dT e T P).
Qed.

Lemma supp_fold_dP l T P :
  let s p := fold_left (WaterSupp.body (WaterSupp.tau T) (WaterSupp.pi p)) l
               WaterSupp.acc0 in
  derivable_pt_lim (fun p => WaterSupp.g (s p)) P (WaterSupp.gp (s P) / 100) /\
  derivable_pt_lim (fun p => WaterSupp.gp (s p)) P (WaterSupp.gpp (s P) / 100) /\
  derivable_pt_lim (fun p => WaterSupp.gt (s p)) P (WaterSupp.gtp (s P) / 100).
Proof.
  cbv zeta. split; [|split].
  - apply (fold_derivative
             (fun p => WaterSupp.body (WaterSupp.tau T) (WaterSupp.pi p))
             WaterSupp.acc0 WaterSupp.g WaterSupp.gp 100 l P).
    + intros t l'. apply supp_g_sum.
    + intros l'. apply supp_gp_sum.
    + intros e. apply (supp_entry_dP e T P).
  - apply (fold_derivative
             (fun p => WaterSupp.body (WaterSupp.tau T) (WaterSupp.pi p))
             WaterSupp.acc0 WaterSupp.gp WaterSupp.gpp 100 l P).
    + intros t l'. apply supp_gp_sum.
    + intros l'. apply supp_gpp_sum.
    + intros e. apply (supp_entry_dP e T P).
  - apply (fold_derivative
             (fun p => WaterSupp.body (WaterSupp.tau T) (WaterSupp.pi p))
             WaterSupp.acc0 WaterSupp.gt WaterSupp.gtp 100 l P).
    + intros t l'. apply supp_gt_sum.
    + intros l'. apply supp_gtp_sum.
    + intros e. apply (supp_entry_dP e T P).
Qed.

Lemma supp_sums_dT T P :
  derivable_pt_lim (fun t => WaterSupp.g (WaterSupp.sums t P)) T
    (WaterSupp.gt (WaterSupp.sums T P) / 40) /\
  derivable_pt_lim (fun t => WaterSupp.gt (WaterSupp.sums t P)) T
    (WaterSupp.gtt (WaterSupp.sums T P) / 40) /\
  derivable_pt_lim (fun t => WaterSupp.gp (WaterSupp.sums t P)) T
    (WaterSupp.gtp (WaterSupp.sums T P) / 40).
Proof.
  exact (supp_fold_dT (zip3 WaterSupp.J WaterSupp.K WaterSupp.G) T P).
Qed.

Lemma supp_sums_dP T P :
  derivable_pt_lim (fun p => WaterSupp.g (WaterSupp.sums T p)) P
    (WaterSupp.gp (WaterSupp.sums T P) / 100) /\
  derivable_pt_lim (fun p => WaterSupp.gp (WaterSupp.sums T p)) P
    (WaterSupp.gpp (WaterSupp.sums T P) / 100) /\
  derivable_pt_lim (fun p => WaterSupp.gt (WaterSupp.sums T p)) P
    (WaterSupp.gtp (WaterSupp.sums T P) / 100).
Proof.
  exact (supp_fold_dP (zip3 WaterSupp.J WaterSupp.K WaterSupp.G) T P).
Qed.

Lemma derivable_pt_lim_rescale f g x l l' c :
  (forall z, g z = f z * c) -> l' = l * c ->
  derivable_pt_lim f x l -> derivable_pt_lim g x l'.
Proof.
  intros Hg -> H.
  apply (derivable_pt_lim_ext (fun t => f t * c)); [intros z; by rewrite Hg|].
  by apply derivable_pt_lim_scale.
Qed.

#[local] Opaque WaterSupp.sums _waterSupp.

(** The outputs of [_waterSupp] are consistent derivatives: [gt] is the
    derivative of [g] with respect to [T], [gtt] that of [gt] and [gtp]
    that of [gp]. *)
Theorem waterSupp_temperature_derivatives T P :
  derivable_pt_lim (fun t => item (_waterSupp t P) "g") T
    (item (_waterSupp T P) "gt") /\
  derivable_pt_lim (fun t => item (_waterSupp t P) "gt") T
    (item (_waterSupp T P) "gtt") /\
  derivable_pt_lim (fun t => item (_waterSupp t P) "gp") T
    (item (_waterSupp T P) "gtp").
Proof.
  destruct (supp_sums_dT T P) as (H1 & H2 & H3).
  destruct (waterSupp_item T P) as (_ & Egt & _ & Egtt & Egtp & _).
  split; [|split].
  - apply (derivable_pt_lim_rescale
             (fun t => WaterSupp.g (WaterSupp.sums t P)) _ _ _ _ 1e-3)
      with (3 := H1).
    + intros z. apply (proj1 (waterSupp_item z P)).
    + rewrite Egt. field.
  - apply (derivable_pt_lim_rescale
             (fun t => WaterSupp.gt (WaterSupp.sums t P)) _ _ _ _ (/ 40 * 1e-3))
      with (3 := H2).
    + intros z. rewrite (proj1 (proj2 (waterSupp_item z P))). unfold Rdiv. ring.
    + rewrite Egtt. field.
  - apply (derivable_pt_lim_rescale
             (fun t => WaterSupp.gp (WaterSupp.sums t P)) _ _ _ _ (/ 100 * 1e-6))
      with (3 := H3).
    + intros z. rewrite (proj1 (proj2 (proj2 (waterSupp_item z P)))). unfold Rdiv. ring.
    + rewrite Egtp. field.
Qed.

(** With respect to [P] (MPa; energies in kJ/kg, volumes in m3/kg): the
    derivative of [g] is [1000*gp], that of [gp] is [gpp] and that of [gt]
    is [1000*gtp]. *)
Theorem waterSupp_pressure_derivatives T P :
  derivable_pt_lim (fun p => item (_waterSupp T p) "g") P
    (1000 * item (_waterSupp T P) "gp") /\
  derivable_pt_lim (fun p => item (_waterSupp T p) "gp") P
    (item (_waterSupp T P) "gpp") /\
  derivable_pt_lim (fun p => item (_waterSupp T p) "gt") P
    (1000 * item (_waterSupp T P) "gtp").
Proof.
  destruct (supp_sums_dP T P) as (H1 & H2 & H3).
  destruct (waterSupp_item T P) as (_ & _ & Egp & _ & Egtp & Egpp).
  split; [|split].
  - apply (derivable_pt_lim_rescale
             (fun p => WaterSupp.g (WaterSupp.sums T p)) _ _ _ _ 1e-3)
      with (3 := H1).
    + intros z. apply (proj1 (waterSupp_item T z)).
    + rewrite Egp. field.
  - apply (derivable_pt_lim_rescale
             (fun p => WaterSupp.gp (WaterSupp.sums T p)) _ _ _ _ (/ 100 * 1e-6))
      with (3 := H2).
    + intros z. rewrite (proj1 (proj2 (proj2 (waterSupp_item T z)))). unfold Rdiv. ring.
    + rewrite Egpp. field.
  - apply (derivable_pt_lim_rescale
             (fun p => WaterSupp.gt (WaterSupp.sums T p)) _ _ _ _ (/ 40 * 1e-3))
      with (3 := H3).
    + intros z. rewrite (proj1 (proj2 (waterSupp_item T z))). unfold Rdiv. ring.
    + rewrite Egtp. field.
Qed.

Lemma saline_sums_Rsum (f : Saline.acc -> R) X tau pi l :
  f Saline.acc0 = 0 ->
  (forall b e, f (body_value X tau pi b e)
               = f b + f (body_value X tau pi Saline.acc0 e)) ->
  f (fold_left (body_value X tau pi) l Saline.acc0)
  = Rsum (fun e => f (body_value X tau pi Saline.acc0 e)) l.
Proof.
  intros H0 Hadd.
  rewrite (fold_left_Rsum (body_value X tau pi) f Saline.acc0).
  - rewrite H0. rewrite Rplus_0_l. apply Rsum_ext. intros e. ring.
  - intros b e. rewrite Hadd, H0. ring.
Qed.

Ltac saline_additive :=
  intros b [[[i j] k] gi];
  unfold body_value, Saline.step_gtt, Saline.step_gtp, Saline.step_gpp;
  destruct (i =? 1)%nat, (1 <=? j)%nat, (1 <=? k)%nat, (2 <=? j)%nat, (2 <=? k)%nat;
  cbn [andb Saline.add_g Saline.add_gt Saline.add_gp Saline.add_gtt Saline.add_gtp
       Saline.add_gpp Saline.add_gs Saline.add_gsp
       Saline.g Saline.gt Saline.gp Saline.gtt Saline.gtp Saline.gpp Saline.gs
       Saline.gsp Saline.acc0];
  ring.

Lemma saline_g_sum X tau pi l :
  Saline.g (fold_left (body_value X tau pi) l Saline.acc0)
  = Rsum (fun e => Saline.g (body_value X tau pi Saline.acc0 e)) l.
Proof. apply saline_sums_Rsum; [reflexivity|saline_additive]. Qed.

Lemma saline_gt_sum X tau pi l :
  Saline.gt (fold_left (body_value X tau pi) l Saline.acc0)
  = Rsum (fun e => Saline.gt (body_value X tau pi Saline.acc0 e)) l.
Proof. apply saline_sums_Rsum; [reflexivity|saline_additive]. Qed.

Lemma saline_gp_sum X tau pi l :
  Saline.gp (fold_left (body_value X tau pi) l Saline.acc0)
  = Rsum (fun e => Saline.gp (body_value X tau pi Saline.acc0 e)) l.
Proof. apply saline_sums_Rsum; [reflexivity|saline_additive]. Qed.

Lemma saline_gtt_sum X tau pi l :
  Saline.gtt (fold_left (body_value X tau pi) l Saline.acc0)
  = Rsum (fun e => Saline.gtt (body_value X tau pi Saline.acc0 e)) l.
Proof. apply saline_sums_Rsum; [reflexivity|saline_additive]. Qed.

Lemma saline_gtp_sum X tau pi l :
  Saline.gtp (fold_left (body_value X tau pi) l Saline.acc0)
  = Rsum (fun e => Saline.gtp (body_value X tau pi Saline.acc0 e)) l.
Proof. apply saline_sums_Rsum; [reflexivity|saline_additive]. Qed.

Lemma saline_gpp_sum X tau pi l :
  Saline.gpp (fold_left (body_value X tau pi) l Saline.acc0)
  = Rsum (fun e => Saline.gpp (body_value X tau pi Saline.acc0 e)) l.
Proof. apply saline_sums_Rsum; [reflexivity|saline_additive]. Qed.

Lemma saline_gs_sum X tau pi l :
  Saline.gs (fold_left (body_value X tau pi) l Saline.acc0)
  = Rsum (fun e => Saline.gs (body_value X tau pi Saline.acc0 e)) l.
Proof. apply saline_sums_Rsum; [reflexivity|saline_additive]. Qed.

Lemma saline_gsp_sum X tau pi l :
  Saline.gsp (fold_left (body_value X tau pi) l Saline.acc0)
  = Rsum (fun e => Saline.gsp (body_value X tau pi Saline.acc0 e)) l.
Proof. apply saline_sums_Rsum; [reflexivity|saline_additive]. Qed.

Ltac saline_fields :=
  cbn [body_value Saline.step_gtt Saline.step_gtp Saline.step_gpp
       Nat.leb Nat.eqb andb
       Saline.add_g Saline.add_gt Saline.add_gp Saline.add_gtt Saline.add_gtp
       Saline.add_gpp Saline.add_gs Saline.add_gsp
       Saline.g Saline.gt Saline.gp Saline.gtt Saline.gtp Saline.gpp Saline.gs
       Saline.gsp Saline.acc0].

Ltac saline_unfold :=
  unfold body_value, Saline.step_gtt, Saline.step_gtp, Saline.step_gpp.

Ltac saline_ring :=
  saline_fields; cbn [Nat.sub]; try change (INR 0) with 0; ring.

Lemma saline_entry_g X tau pi i j k gi :
  Saline.g (body_value X tau pi Saline.acc0 (i, j, k, gi))
  = Xfactor X i gi * tau ^ j * pi ^ k.
Proof.
  saline_unfold. unfold Xfactor.
  destruct (i =? 1)%nat, (1 <=? j)%nat, (1 <=? k)%nat, (2 <=? j)%nat, (2 <=? k)%nat;
    saline_ring.
Qed.

Lemma saline_entry_gt X tau pi i j k gi :
  Saline.gt (body_value X tau pi Saline.acc0 (i, j, k, gi))
  = Xfactor X i gi * INR j * tau ^ (j - 1) * pi ^ k.
Proof.
  saline_unfold. unfold Xfactor.
  destruct j as [|j].
  - destruct (i =? 1)%nat, (1 <=? k)%nat, (2 <=? k)%nat; saline_ring.
  - change (1 <=? S j)%nat with true.
    destruct (i =? 1)%nat, (1 <=? k)%nat, (2 <=? S j)%nat, (2 <=? k)%nat;
      saline_ring.
Qed.

Lemma saline_entry_gp X tau pi i j k gi :
  Saline.gp (body_value X tau pi Saline.acc0 (i, j, k, gi))
  = gi * X ^ i * INR k * tau ^ j * pi ^ (k - 1).
Proof.
  saline_unfold.
  destruct k as [|k].
  - destruct (i =? 1)%nat, (1 <=? j)%nat, (2 <=? j)%nat; saline_ring.
  - change (1 <=? S k)%nat with true.
    destruct (i =? 1)%nat, (1 <=? j)%nat, (2 <=? j)%nat, (2 <=? S k)%nat;
      saline_ring.
Qed.

Lemma saline_entry_gtt X tau pi i j k gi :
  Saline.gtt (body_value X tau pi Saline.acc0 (i, j, k, gi))
  = gi * X ^ i * INR j * INR (j - 1) * tau ^ (j - 2) * pi ^ k.
Proof.
  saline_unfold.
  destruct j as [|[|j]].
  - destruct (i =? 1)%nat, (1 <=? k)%nat, (2 <=? k)%nat; saline_ring.
  - destruct (i =? 1)%nat, (1 <=? k)%nat, (2 <=? k)%nat; saline_ring.
  - change (2 <=? S (S j))%nat with true. change (1 <=? S (S j))%nat with true.
    rewrite !mult_INR.
    destruct (i =? 1)%nat, (1 <=? k)%nat, (2 <=? k)%nat; saline_ring.
Qed.

Lemma saline_entry_gtp X tau pi i j k gi :
  Saline.gtp (body_value X tau pi Saline.acc0 (i, j, k, gi))
  = gi * X ^ i * INR j * INR k * tau ^ (j - 1) * pi ^ (k - 1).
Proof.
  saline_unfold. rewrite !mult_INR.
  destruct j as [|j], k as [|k].
  - destruct (i =? 1)%nat; saline_ring.
  - change (1 <=? S k)%nat with true.
    destruct (i =? 1)%nat, (2 <=? S k)%nat; saline_ring.
  - change (1 <=? S j)%nat with true.
    destruct (i =? 1)%nat, (2 <=? S j)%nat; saline_ring.
  - change (1 <=? S j)%nat with true. change (1 <=? S k)%nat with true.
    destruct (i =? 1)%nat, (2 <=? S j)%nat, (2 <=? S k)%nat; saline_ring.
Qed.

Lemma saline_entry_gpp X tau pi i j k gi :
  Saline.gpp (body_value X tau pi Saline.acc0 (i, j, k, gi))
  = gi * X ^ i * INR k * INR (k - 1) * tau ^ j * pi ^ (k - 2).
Proof.
  saline_unfold.
  destruct k as [|[|k]].
  - destruct (i =? 1)%nat, (1 <=? j)%nat, (2 <=? j)%nat; saline_ring.
  - destruct (i =? 1)%nat, (1 <=? j)%nat, (2 <=? j)%nat; saline_ring.
  - change (2 <=? S (S k))%nat with true. change (1 <=? S (S k))%nat with true.
    rewrite !mult_INR.
    destruct (i =? 1)%nat, (1 <=? j)%nat, (2 <=? j)%nat; saline_ring.
Qed.

Lemma saline_entry_gs X tau pi i j k gi :
  Saline.gs (body_value X tau pi Saline.acc0 (i, j, k, gi))
  = (if (i =? 1)%nat then gi * (2 * ln X + 1)
     else INR i * gi * pow_sub X i 2) * tau ^ j * pi ^ k.
Proof.
  saline_unfold.
  destruct (i =? 1)%nat, (1 <=? j)%nat, (1 <=? k)%nat, (2 <=? j)%nat, (2 <=? k)%nat;
    saline_ring.
Qed.

Lemma saline_entry_gsp X tau pi i j k gi :
  Saline.gsp (body_value X tau pi Saline.acc0 (i, j, k, gi))
  = INR i * gi * pow_sub X i 2 * INR k * tau ^ j * pi ^ (k - 1).
Proof.
  saline_unfold. rewrite !mult_INR.
  destruct k as [|k].
  - destruct (i =? 1)%nat, (1 <=? j)%nat, (2 <=? j)%nat; saline_ring.
  - change (1 <=? S k)%nat with true.
    destruct (i =? 1)%nat, (1 <=? j)%nat, (2 <=? j)%nat, (2 <=? S k)%nat;
      saline_ring.
Qed.

Lemma fold_derivative_on {A B} (step : R -> B -> A -> B) (b0 : B) (f f' : B -> R)
  (c : R) (l : list A) (x : R) :
  (forall t l, f (fold_left (step t) l b0)
               = Rsum (fun e => f (step t b0 e)) l) ->
  (forall l, f' (fold_left (step x) l b0)
             = Rsum (fun e => f' (step x b0 e)) l) ->
  Forall (fun e => derivable_pt_lim (fun t => f (step t b0 e)) x
                     (f' (step x b0 e) * c)) l ->
  derivable_pt_lim (fun t => f (fold_left (step t) l b0)) x
    (f' (fold_left (step x) l b0) * c).
Proof.
  intros Hf Hf' He. eapply derivable_pt_lim_eq.
  - apply (derivable_pt_lim_ext (fun t => Rsum (fun e => f (step t b0 e)) l)).
    + intros z. symmetry. apply Hf.
    + apply (derivable_pt_lim_Rsum (fun t e => f (step t b0 e))
               (fun e => f' (step x b0 e) * c)). exact He.
  - rewrite Hf'. apply Rsum_scal.
Qed.

Lemma plain_entry_cases i j k gi :
  plain_entry (i, j, k, gi) ->
  Xfactor = Xfactor /\
  ((i =? 1)%nat = false \/ ((i =? 1)%nat = true /\ (j = 0%nat \/ j = 1%nat) /\ k = 0%nat)).
Proof.
  intros H. split; [done|]. destruct (i =? 1)%nat eqn:E; [right|by left].
  apply Nat.eqb_eq in E. destruct (H E) as [Hj Hk].
  split; [done|]. split; [lia|done].
Qed.

(** Derivatives of one saline term with respect to the temperature. *)
Lemma saline_entry_dT X e T P :
  let b t := body_value X (Saline.tau t) (Saline.pi P) Saline.acc0 e in
  derivable_pt_lim (fun t => Saline.g (b t)) T (Saline.gt (b T) * / 40) /\
  derivable_pt_lim (fun t => Saline.gp (b t)) T (Saline.gtp (b T) * / 40) /\
  (plain_entry e ->
   derivable_pt_lim (fun t => Saline.gt (b t)) T (Saline.gtt (b T) * / 40)).
Proof.
  destruct e as [[[i j] k] gi]. cbv zeta. unfold Saline.tau.
  set (p := Saline.pi P).
  assert (H40 : (40 : R) <> 0) by lra.
  split; [|split].
  - eapply derivable_pt_lim_eq.
    + apply (derivable_pt_lim_ext
               (fun t => Xfactor X i gi * ((t - 273.15) / 40) ^ j * p ^ k)).
      * intros z. by rewrite saline_entry_g.
      * by apply derivable_pt_lim_monomial.
    + rewrite saline_entry_gt. unfold Rdiv. ring.
  - eapply derivable_pt_lim_eq.
    + apply (derivable_pt_lim_ext
               (fun t => (gi * X ^ i * INR k) * ((t - 273.15) / 40) ^ j * p ^ (k - 1))).
      * intros z. by rewrite saline_entry_gp.
      * by apply derivable_pt_lim_monomial.
    + rewrite saline_entry_gtp. unfold Rdiv. ring.
  - intros Hplain. eapply derivable_pt_lim_eq.
    + apply (derivable_pt_lim_ext
               (fun t => (Xfactor X i gi * INR j) * ((t - 273.15) / 40) ^ (j - 1) * p ^ k)).
      * intros z. by rewrite saline_entry_gt.
      * by apply derivable_pt_lim_monomial.
    + rewrite saline_entry_gtt. unfold Xfactor.
      replace (j - 1 - 1)%nat with (j - 2)%nat by lia.
      destruct (plain_entry_cases i j k gi Hplain) as [_ [->|(-> & [->| ->] & _)]];
        cbn [Nat.sub]; try change (INR 0) with 0; unfold Rdiv; ring.
Qed.

(** Derivatives of one saline term with respect to the pressure. *)
Lemma saline_entry_dP X e T P :
  let b p := body_value X (Saline.tau T) (Saline.pi p) Saline.acc0 e in
  derivable_pt_lim (fun p => Saline.gp (b p)) P (Saline.gpp (b P) * / 100) /\
  (plain_entry e ->
   derivable_pt_lim (fun p => Saline.g (b p)) P (Saline.gp (b P) * / 100) /\
   derivable_pt_lim (fun p => Saline.gt (b p)) P (Saline.gtp (b P) * / 100) /\
   derivable_pt_lim (fun p => Saline.gs (b p)) P (Saline.gsp (b P) * / 100)).
Proof.
  destruct e as [[[i j] k] gi]. cbv zeta. unfold Saline.pi.
  set (t := Saline.tau T).
  assert (H100 : (100 : R) <> 0) by lra.
  split; [|intros Hplain; split; [|split]].
  - eapply derivable_pt_lim_eq.
    + apply (derivable_pt_lim_ext
               (fun p => (gi * X ^ i * INR k * t ^ j) * ((p - 0.101325) / 100) ^ (k - 1) * 1)).
      * intros z. rewrite saline_entry_gp. ring.
      * by apply derivable_pt_lim_monomial.
    + rewrite saline_entry_gpp.
      replace (k - 1 - 1)%nat with (k - 2)%nat by lia. unfold Rdiv. ring.
  - eapply derivable_pt_lim_eq.
    + apply (derivable_pt_lim_ext
               (fun p => (Xfactor X i gi * t ^ j) * ((p - 0.101325) / 100) ^ k * 1)).
      * intros z. rewrite saline_entry_g. ring.
      * by apply derivable_pt_lim_monomial.
    + rewrite saline_entry_gp. unfold Xfactor.
      destruct (plain_entry_cases i j k gi Hplain) as [_ [->|(-> & _ & ->)]];
        cbn [Nat.sub]; try change (INR 0) with 0; unfold Rdiv; ring.
  - eapply derivable_pt_lim_eq.
    + apply (derivable_pt_lim_ext
               (fun p => (Xfactor X i gi * INR j * t ^ (j - 1)) * ((p - 0.101325) / 100) ^ k * 1)).
      * intros z. rewrite saline_entry_gt. ring.
      * by apply derivable_pt_lim_monomial.
    + rewrite saline_entry_gtp. unfold Xfactor.
      destruct (plain_entry_cases i j k gi Hplain) as [_ [->|(-> & _ & ->)]];
        cbn [Nat.sub]; try change (INR 0) with 0; unfold Rdiv; ring.
  - eapply derivable_pt_lim_eq.
    + apply (derivable_pt_lim_ext
               (fun p => ((if (i =? 1)%nat then gi * (2 * ln X + 1)
                           else INR i * gi * pow_sub X i 2) * t ^ j)
                         * ((p - 0.101325) / 100) ^ k * 1)).
      * intros z. rewrite saline_entry_gs. ring.
      * by apply derivable_pt_lim_monomial.
    + rewrite saline_entry_gsp.
      destruct (plain_entry_cases i j k gi Hplain) as [_ [->|(-> & _ & ->)]];
        cbn [Nat.sub]; try change (INR 0) with 0; unfold Rdiv; ring.
Qed.

Lemma saline_table_plain :
  Forall plain_entry (zip4 Saline.I Saline.J Saline.K Saline.G).
Proof.
  eapply Forall_impl; [apply saline_table_log_entries|].
  intros [[[i j] k] gi] H Hi. destruct (H Hi) as (Hj & Hk & _). done.
Qed.

Lemma Xof_pos S : 0 < S -> 0 < Xof S.
Proof. intros HS. by apply X_pos. Qed.

Lemma Xof_dS S :
  0 < S -> derivable_pt_lim Xof S (/ (2 * Xof S) * / Saline.S_).
Proof.
  intros HS. pose proof S_ref_pos as H_.
  apply (derivable_pt_lim_ext (comp sqrt (fun s => s * / Saline.S_))).
  { intros z. reflexivity. }
  apply derivable_pt_lim_comp.
  - eapply derivable_pt_lim_eq.
    + apply (derivable_pt_lim_scale id S 1 (/ Saline.S_)). apply derivable_pt_lim_id.
    + ring.
  - apply derivable_pt_lim_sqrt. apply Rmult_lt_0_compat; [done|].
    by apply Rinv_0_lt_compat.
Qed.

Lemma Xpow_dS i sal :
  0 < sal ->
  derivable_pt_lim (fun s => Xof s ^ i) sal
    (INR i * pow_sub (Xof sal) i 2 * (/ Saline.S_ * / 2)).
Proof.
  intros HS. pose proof S_ref_pos as H_. pose proof (Xof_pos sal HS) as HX.
  eapply derivable_pt_lim_eq.
  - apply (derivable_pt_lim_ext (comp (fun y => y ^ i) Xof)).
    { intros z. reflexivity. }
    apply derivable_pt_lim_comp; [by apply Xof_dS|]. apply derivable_pt_lim_pow.
  - unfold pow_sub. destruct i as [|[|i]].
    + cbn. ring.
    + cbn. field. lra.
    + change (2 <=? S (S i))%nat with true. cbn [pred Nat.sub].
      rewrite Nat.sub_0_r, <- !tech_pow_Rmult. field. lra.
Qed.

Lemma Xlog_dS S :
  0 < S ->
  derivable_pt_lim (fun s => Xof s ^ 2 * ln (Xof s)) S
    ((2 * ln (Xof S) + 1) * (/ Saline.S_ * / 2)).
Proof.
  intros HS. pose proof S_ref_pos as H_. pose proof (Xof_pos S HS) as HX.
  eapply derivable_pt_lim_eq.
  - apply (derivable_pt_lim_mult (fun s => Xof s ^ 2) (fun s => ln (Xof s))).
    + by apply (Xpow_dS 2).
    + apply (derivable_pt_lim_ext (comp ln Xof)).
      { intros z. reflexivity. }
      apply derivable_pt_lim_comp; [by apply Xof_dS|]. by apply derivable_pt_lim_ln.
  - unfold pow_sub. cbn. field. lra.
Qed.

Lemma Xfactor_dS i gi S :
  0 < S ->
  derivable_pt_lim (fun s => Xfactor (Xof s) i gi) S
    ((if (i =? 1)%nat then gi * (2 * ln (Xof S) + 1)
      else INR i * gi * pow_sub (Xof S) i 2) * (/ Saline.S_ * / 2)).
Proof.
  intros HS. unfold Xfactor. destruct (i =? 1)%nat.
  - eapply derivable_pt_lim_eq.
    + apply (derivable_pt_lim_ext
               (mult_real_fct gi (fun s => Xof s ^ 2 * ln (Xof s)))).
      { intros z. unfold mult_real_fct. ring. }
      apply derivable_pt_lim_scal. by apply Xlog_dS.
    + ring.
  - eapply derivable_pt_lim_eq.
    + apply (derivable_pt_lim_ext (mult_real_fct gi (fun s => Xof s ^ i))).
      { intros z. reflexivity. }
      apply derivable_pt_lim_scal. by apply Xpow_dS.
    + ring.
Qed.

(** Derivatives of one saline term with respect to the salinity. *)
Lemma saline_entry_dS e T P S :
  0 < S ->
  let b s := body_value (Xof s) (Saline.tau T) (Saline.pi P) Saline.acc0 e in
  derivable_pt_lim (fun s => Saline.g (b s)) S
    (Saline.gs (b S) * (/ Saline.S_ * / 2)) /\
  derivable_pt_lim (fun s => Saline.gp (b s)) S
    (Saline.gsp (b S) * (/ Saline.S_ * / 2)).
Proof.
  intros HS. destruct e as [[[i j] k] gi]. cbv zeta.
  set (t := Saline.tau T). set (p := Saline.pi P).
  split.
  - eapply derivable_pt_lim_eq.
    + apply (derivable_pt_lim_ext
               (fun s => Xfactor (Xof s) i gi * (t ^ j * p ^ k))).
      { intros z. rewrite saline_entry_g. ring. }
      apply derivable_pt_lim_scale. by apply Xfactor_dS.
    + rewrite saline_entry_gs. ring.
  - eapply derivable_pt_lim_eq.
    + apply (derivable_pt_lim_ext
               (fun s => Xof s ^ i * (gi * INR k * t ^ j * p ^ (k - 1)))).
      { intros z. rewrite saline_entry_gp. ring. }
      apply derivable_pt_lim_scale. by apply Xpow_dS.
    + rewrite saline_entry_gsp. ring.
Qed.

Lemma saline_loop_value l tau pi S :
  0 < S ->
  for_each (Saline.body (sqrt (S / Saline.S_)) tau pi) l Saline.acc0
  = Ok (fold_left (body_value (Xof S) tau pi) l Saline.acc0).
Proof. intros HS. unfold Xof. apply for_each_pos. by apply X_pos. Qed.

Lemma saline_value T P S :
  0 < S ->
  _saline T P S =
  Ok (Saline.normalise
        (saline_fold (zip4 Saline.I Saline.J Saline.K Saline.G) T P S)).
Proof.
  intros HS. destruct (X_pos S HS) as [HX Hpos].
  unfold _saline, Saline.sums, saline_fold. rewrite HX.
  change (Ok (sqrt (S / Saline.S_)) ≫= _) with
    (if Req_dec_T S 0 then Ok Saline.acc0
     else Saline.loop (sqrt (S / Saline.S_)) (Saline.tau T) (Saline.pi P)).
  destruct (Req_dec_T S 0) as [H0|_]; [lra|].
  unfold Saline.loop. rewrite (saline_loop_value _ _ _ S HS).
  generalize (zip4 Saline.I Saline.J Saline.K Saline.G). intros l. reflexivity.
Qed.

Lemma saline_item_value T P S :
  0 < S ->
  let a := saline_fold (zip4 Saline.I Saline.J Saline.K Saline.G) T P S in
  saline_item "g" T P S = Saline.g a * 1e-3 /\
  saline_item "gt" T P S = Saline.gt a * (/ 40 * 1e-3) /\
  saline_item "gp" T P S = Saline.gp a * (/ 100 * 1e-6) /\
  saline_item "gtt" T P S = Saline.gtt a * (/ 40 * (/ 40 * 1e-3)) /\
  saline_item "gtp" T P S = Saline.gtp a * (/ 40 * (/ 100 * 1e-6)) /\
  saline_item "gpp" T P S = Saline.gpp a * (/ 100 * (/ 100 * 1e-6)) /\
  saline_item "gs" T P S = Saline.gs a * (/ Saline.S_ * / 2 * 1e-3) /\
  saline_item "gsp" T P S = Saline.gsp a * (/ Saline.S_ * / 2 * (/ 100 * 1e-6)).
Proof.
  intros HS. cbv zeta. unfold saline_item. rewrite (saline_value T P S HS).
  generalize (saline_fold (zip4 Saline.I Saline.J Saline.K Saline.G) T P S).
  intros a. unfold item.
  destruct (normalise_lookup a) as (-> & -> & -> & -> & -> & -> & -> & ->).
  pose proof S_ref_pos.
  repeat split; cbn [default Datatypes.id]; unfold Datatypes.id; field; lra.
Qed.

Lemma saline_fold_dT l T P S :
  Forall plain_entry l ->
  derivable_pt_lim (fun t => Saline.g (saline_fold l t P S)) T
    (Saline.gt (saline_fold l T P S) * / 40) /\
  derivable_pt_lim (fun t => Saline.gp (saline_fold l t P S)) T
    (Saline.gtp (saline_fold l T P S) * / 40) /\
  derivable_pt_lim (fun t => Saline.gt (saline_fold l t P S)) T
    (Saline.gtt (saline_fold l T P S) * / 40).
Proof.
  intros Hl. unfold saline_fold. split; [|split].
  - apply (fold_derivative_on
             (fun t => body_value (Xof S) (Saline.tau t) (Saline.pi P))
             Saline.acc0 Saline.g Saline.gt (/ 40) l T).
    + intros t l'. apply saline_g_sum.
    + intros l'. apply saline_gt_sum.
    + apply Forall_forall. intros e _. apply (saline_entry_dT (Xof S) e T P).
  - apply (fold_derivative_on
             (fun t => body_value (Xof S) (Saline.tau t) (Saline.pi P))
             Saline.acc0 Saline.gp Saline.gtp (/ 40) l T).
    + intros t l'. apply saline_gp_sum.
    + intros l'. apply saline_gtp_sum.
    + apply Forall_forall. intros e _. apply (saline_entry_dT (Xof S) e T P).
  - apply (fold_derivative_on
             (fun t => body_value (Xof S) (Saline.tau t) (Saline.pi P))
             Saline.acc0 Saline.gt Saline.gtt (/ 40) l T).
    + intros t l'. apply saline_gt_sum.
    + intros l'. apply saline_gtt_sum.
    + eapply Forall_impl; [exact Hl|]. intros e He.
      apply (saline_entry_dT (Xof S) e T P). exact He.
Qed.

Lemma saline_fold_dP l T P S :
  Forall plain_entry l ->
  derivable_pt_lim (fun p => Saline.g (saline_fold l T p S)) P
    (Saline.gp (saline_fold l T P S) * / 100) /\
  derivable_pt_lim (fun p => Saline.gp (saline_fold l T p S)) P
    (Saline.gpp (saline_fold l T P S) * / 100) /\
  derivable_pt_lim (fun p => Saline.gt (saline_fold l T p S)) P
    (Saline.gtp (saline_fold l T P S) * / 100) /\
  derivable_pt_lim (fun p => Saline.gs (saline_fold l T p S)) P
    (Saline.gsp (saline_fold l T P S) * / 100).
Proof.
  intros Hl. unfold saline_fold. split; [|split; [|split]].
  - apply (fold_derivative_on
             (fun p => body_value (Xof S) (Saline.tau T) (Saline.pi p))
             Saline.acc0 Saline.g Saline.gp (/ 100) l P).
    + intros t l'. apply saline_g_sum.
    + intros l'. apply saline_gp_sum.
    + eapply Forall_impl; [exact Hl|]. intros e He.
      apply (saline_entry_dP (Xof S) e T P). exact He.
  - apply (fold_derivative_on
             (fun p => body_value (Xof S) (Saline.tau T) (Saline.pi p))
             Saline.acc0 Saline.gp Saline.gpp (/ 100) l P).
    + intros t l'. apply saline_gp_sum.
    + intros l'. apply saline_gpp_sum.
    + apply Forall_forall. intros e _. apply (saline_entry_dP (Xof S) e T P).
  - apply (fold_derivative_on
             (fun p => body_value (Xof S) (Saline.tau T) (Saline.pi p))
             Saline.acc0 Saline.gt Saline.gtp (/ 100) l P).
    + intros t l'. apply saline_gt_sum.
    + intros l'. apply saline_gtp_sum.
    + eapply Forall_impl; [exact Hl|]. intros e He.
      apply (saline_entry_dP (Xof S) e T P). exact He.
  - apply (fold_derivative_on
             (fun p => body_value (Xof S) (Saline.tau T) (Saline.pi p))
             Saline.acc0 Saline.gs Saline.gsp (/ 100) l P).
    + intros t l'. apply saline_gs_sum.
    + intros l'. apply saline_gsp_sum.
    + eapply Forall_impl; [exact Hl|]. intros e He.
      apply (saline_entry_dP (Xof S) e T P). exact He.
Qed.

Lemma saline_fold_dS l T P S :
  0 < S ->
  derivable_pt_lim (fun s => Saline.g (saline_fold l T P s)) S
    (Saline.gs (saline_fold l T P S) * (/ Saline.S_ * / 2)) /\
  derivable_pt_lim (fun s => Saline.gp (saline_fold l T P s)) S
    (Saline.gsp (saline_fold l T P S) * (/ Saline.S_ * / 2)).
Proof.
  intros HS. unfold saline_fold. split.
  - apply (fold_derivative_on
             (fun s => body_value (Xof s) (Saline.tau T) (Saline.pi P))
             Saline.acc0 Saline.g Saline.gs (/ Saline.S_ * / 2) l S).
    + intros t l'. apply saline_g_sum.
    + intros l'. apply saline_gs_sum.
    + apply Forall_forall. intros e _. by apply (saline_entry_dS e T P S).
  - apply (fold_derivative_on
             (fun s => body_value (Xof s) (Saline.tau T) (Saline.pi P))
             Saline.acc0 Saline.gp Saline.gsp (/ Saline.S_ * / 2) l S).
    + intros t l'. apply saline_gp_sum.
    + intros l'. apply saline_gsp_sum.
    + apply Forall_forall. intros e _. by apply (saline_entry_dS e T P S).
Qed.

#[local] Opaque saline_fold saline_item.

(** For [S > 0] the outputs of [_saline] are consistent derivatives with
    respect to [T]: [gt] of [g], [gtt] of [gt] and [gtp] of [gp].  The
    second uses that the table has no logarithmic entry with [j >= 2]. *)
Theorem saline_temperature_derivatives T P S :
  0 < S ->
  derivable_pt_lim (fun t => saline_item "g" t P S) T (saline_item "gt" T P S) /\
  derivable_pt_lim (fun t => saline_item "gt" t P S) T (saline_item "gtt" T P S) /\
  derivable_pt_lim (fun t => saline_item "gp" t P S) T (saline_item "gtp" T P S).
Proof.
  intros HS.
  destruct (saline_fold_dT _ T P S saline_table_plain) as (H1 & H2 & H3).
  pose proof (fun z => saline_item_value z P S HS) as Hv. cbv zeta in Hv.
  destruct (Hv T) as (_ & Egt & _ & Egtt & Egtp & _).
  split; [|split].
  - eapply (derivable_pt_lim_rescale _ _ _ _ _ 1e-3) with (3 := H1);
      [intros z; exact (proj1 (Hv z))|].
    rewrite Egt. ring.
  - eapply (derivable_pt_lim_rescale _ _ _ _ _ (/ 40 * 1e-3)) with (3 := H3);
      [intros z; exact (proj1 (proj2 (Hv z)))|].
    rewrite Egtt. ring.
  - eapply (derivable_pt_lim_rescale _ _ _ _ _ (/ 100 * 1e-6)) with (3 := H2);
      [intros z; exact (proj1 (proj2 (proj2 (Hv z))))|].
    rewrite Egtp. ring.
Qed.

(** For [S > 0], with respect to [P]: the derivative of [g] is [1000*gp],
    that of [gp] is [gpp], that of [gt] is [1000*gtp] and that of [gs] is
    [1000*gsp].  All but the second use that the table has no logarithmic
    entry with [k >= 1]. *)
Theorem saline_pressure_derivatives T P S :
  0 < S ->
  derivable_pt_lim (fun p => saline_item "g" T p S) P
    (1000 * saline_item "gp" T P S) /\
  derivable_pt_lim (fun p => saline_item "gp" T p S) P (saline_item "gpp" T P S) /\
  derivable_pt_lim (fun p => saline_item "gt" T p S) P
    (1000 * saline_item "gtp" T P S) /\
  derivable_pt_lim (fun p => saline_item "gs" T p S) P
    (1000 * saline_item "gsp" T P S).
Proof.
  intros HS.
  destruct (saline_fold_dP _ T P S saline_table_plain) as (H1 & H2 & H3 & H4).
  pose proof (fun z => saline_item_value T z S HS) as Hv. cbv zeta in Hv.
  destruct (Hv P) as (_ & _ & Egp & _ & Egtp & Egpp & _ & Egsp).
  split; [|split; [|split]].
  - eapply (derivable_pt_lim_rescale _ _ _ _ _ 1e-3) with (3 := H1);
      [intros z; exact (proj1 (Hv z))|].
    rewrite Egp. field.
  - eapply (derivable_pt_lim_rescale _ _ _ _ _ (/ 100 * 1e-6)) with (3 := H2);
      [intros z; exact (proj1 (proj2 (proj2 (Hv z))))|].
    rewrite Egpp. ring.
  - eapply (derivable_pt_lim_rescale _ _ _ _ _ (/ 40 * 1e-3)) with (3 := H3);
      [intros z; exact (proj1 (proj2 (Hv z)))|].
    rewrite Egtp. field.
  - eapply (derivable_pt_lim_rescale _ _ _ _ _ (/ Saline.S_ * / 2 * 1e-3)) with (3 := H4);
      [intros z; exact (proj1 (proj2 (proj2 (proj2 (proj2 (proj2 (proj2 (Hv z))))))))|].
    rewrite Egsp. pose proof S_ref_pos. field. lra.
Qed.

(** For [S > 0], with respect to the salinity: [gs] is the derivative of
    [g] and [gsp] that of [gp], through [X = sqrt(S/S_)] and the term
    [X^2*ln(X)]. *)
Theorem saline_salinity_derivatives T P S :
  0 < S ->
  derivable_pt_lim (fun s => saline_item "g" T P s) S (saline_item "gs" T P S) /\
  derivable_pt_lim (fun s => saline_item "gp" T P s) S (saline_item "gsp" T P S).
Proof.
  intros HS.
  destruct (saline_fold_dS (zip4 Saline.I Saline.J Saline.K Saline.G) T P S HS)
    as (H1 & H2).
  destruct (saline_item_value T P S HS) as (_ & _ & _ & _ & _ & _ & Egs & Egsp).
  split.
  - apply (derivable_pt_lim_locally_ext
             (fun s => Saline.g (saline_fold (zip4 Saline.I Saline.J Saline.K Saline.G) T P s)
                       * 1e-3) _ S 0 (S + 1)).
    + lra.
    + intros z [Hz _]. symmetry. apply (saline_item_value T P z Hz).
    + eapply derivable_pt_lim_eq; [apply derivable_pt_lim_scale; exact H1|].
      rewrite Egs. ring.
  - apply (derivable_pt_lim_locally_ext
             (fun s => Saline.gp (saline_fold (zip4 Saline.I Saline.J Saline.K Saline.G) T P s)
                       * (/ 100 * 1e-6)) _ S 0 (S + 1)).
    + lra.
    + intros z [Hz _]. symmetry. apply (saline_item_value T P z Hz).
    + eapply derivable_pt_lim_eq; [apply derivable_pt_lim_scale; exact H2|].
      rewrite Egsp. ring.
Qed.

(** ** Shape of the pure-water set, and instances at concrete inputs *)

#[local] Transparent WaterSupp.sums _waterSupp saline_fold saline_item.

(** Both pure-water strategies return a dictionary of the same shape:
    exactly the eight keys, with [gs = gsp = 0]. *)
Theorem pure_water_shape (eos : R -> R -> result Water.t) fast T P pw :
  pure_water eos fast T P = Ok pw ->
  (forall key, is_Some (pw !! key) <-> key ∈ keys8) /\
  pw !! "gs" = Some 0 /\ pw !! "gsp" = Some 0.
Proof.
  intros H. split; [exact (pure_water_keys eos fast T P pw H)|].
  unfold pure_water in H. destruct (fast && py_le T 313.15).
  - injection H as <-.
    destruct (waterSupp_lookup T P) as (_ & _ & _ & _ & _ & _ & Hgs & Hgsp).
    by split.
  - pose proof (water_result eos T P) as Hw.
    destruct (eos T P) as [w|e]; [|congruence].
    destruct Hw as [Hzero Hok].
    destruct (Req_dec_T (Water.rho w) 0) as [?|Hr]; [rewrite Hzero in H by auto; discriminate|].
    destruct (Req_dec_T T 0) as [?|HT]; [rewrite Hzero in H by auto; discriminate|].
    destruct (Req_dec_T (Water.w w) 0) as [?|Hww]; [rewrite Hzero in H by auto; discriminate|].
    rewrite (Hok Hr HT Hww) in H. injection H as <-.
    match goal with
    | |- dict8 ?a1 ?a2 ?a3 ?a4 ?a5 ?a6 ?a7 ?a8 !! _ = _ /\ _ =>
        destruct (dict8_lookup a1 a2 a3 a4 a5 a6 a7 a8)
          as (_ & _ & _ & _ & _ & _ & Hgs & Hgsp)
    end.
    by split.
Qed.

Lemma pure_water_shape_witness :
  _waterSupp 300 1 !! "gs" = Some 0 /\ _waterSupp 300 1 !! "gsp" = Some 0.
Proof.
  apply (pure_water_shape no_iapws95 true 300 1 (_waterSupp 300 1)).
  unfold pure_water. rewrite py_le_true by lra. reflexivity.
Defined.

Lemma water_result_witness :
  _water const_iapws95 0 1 = Raise ZeroDivisionError /\
  _water no_iapws95 300 1 = Raise (ExternalError 0).
Proof.
  split.
  - apply (water_result const_iapws95 0 1). right. left. reflexivity.
  - exact (water_result no_iapws95 300 1).
Defined.

Lemma zero_salinity_reproduces_pure_water_witness :
  exists self',
    calculo const_iapws95
      {| kwargs := {| kw_T := Some 320; kw_P := Some 1; kw_S := Some 0;
                      kw_fast := true |};
         attrs := ∅ |} = Ok self' /\
    getattr self' "rho" = Ok (VNum 1000) /\
    getattr self' "cp" = Ok (VNum 4) /\
    getattr self' "w" = Ok (VNum 1500).
Proof.
  destruct (zero_salinity_reproduces_pure_water const_iapws95
              {| kwargs := {| kw_T := Some 320; kw_P := Some 1; kw_S := Some 0;
                              kw_fast := true |};
                 attrs := ∅ |} 320 1 example_water)
    as (self' & Hrun & Hrho & _ & _ & _ & Hcp & _ & Hw);
    try reflexivity; cbn [Water.rho Water.w Water.cp example_water]; try lra.
  exists self'. repeat split; assumption.
Defined.

Lemma calculo_output_identities_witness :
  exists self' rho v,
    calculo no_iapws95 example_self = Ok self' /\
    getattr self' "rho" = Ok (VNum rho) /\
    getattr self' "v" = Ok (VNum v) /\
    rho * v = 1.
Proof.
  destruct (example_run ∅) as [self' H].
  destruct (calculo_output_identities no_iapws95 example_self self' H)
    as (T & P & g & rho & v & s & h & u & a & _ & (_ & Hrho & Hv & _) & Hone & _).
  exists self', rho, v. repeat split; assumption.
Defined.

Lemma calculo_writes_only_its_attributes_witness :
  exists self',
    calculo no_iapws95 example_self = Ok self' /\
    kwargs self' = example_kwargs /\
    is_Some (attrs self' !! "haline") /\
    attrs self' !! "status" = None.
Proof.
  destruct (example_run ∅) as [self' H].
  destruct (calculo_writes_only_its_attributes no_iapws95 example_self self' H)
    as (Hk & Hin & Hout).
  exists self'. split; [exact H|]. split; [exact Hk|]. split.
  - apply Hin. apply (bool_decide_unpack _). by vm_compute.
  - rewrite Hout; [reflexivity|]. apply (bool_decide_unpack _). by vm_compute.
Defined.

Lemma calculo_salinity_one_witness :
  calculo no_iapws95
    {| kwargs := {| kw_T := Some 300; kw_P := Some 1; kw_S := Some 1;
                    kw_fast := false |};
       attrs := ∅ |} = Raise ZeroDivisionError.
Proof.
  apply (calculo_salinity_one no_iapws95 _ 300 1); reflexivity.
Defined.

Lemma negative_salinity_raises_witness :
  exists e, _saline 300 1 (-0.01) = Raise e.
Proof.
  apply (negative_salinity_raises no_iapws95
           {| kwargs := {| kw_T := Some 300; kw_P := Some 1; kw_S := Some (-0.01);
                           kw_fast := false |};
              attrs := ∅ |} 300 1 (-0.01)); try reflexivity.
  lra.
Defined.

Lemma ready_needs_P kw : kw_P kw = Some 0 -> ready kw = false.
Proof.
  intros HP. destruct (ready kw) eqn:Hr; [|done].
  apply ready_true in Hr as (T & P & S & _ & _ & HP' & HP0 & _). congruence.
Qed.

Lemma call_one_by_one_witness :
  (self1 ← __call__ no_iapws95 {| kwargs := SeaWater_kwargs; attrs := ∅ |}
             {| upd_T := Some (Some 273.15); upd_P := None; upd_S := None;
                upd_fast := Some true |};
   __call__ no_iapws95 self1
     {| upd_T := None; upd_P := Some (Some 0.101325);
        upd_S := Some (Some Saline.S_); upd_fast := None |})
  = __init__ no_iapws95 example_upd.
Proof.
  apply (call_one_by_one no_iapws95 {| kwargs := SeaWater_kwargs; attrs := ∅ |}).
  apply ready_needs_P. reflexivity.
Defined.

Lemma sum_sets_key_error_witness :
  sum_sets {["g" := 1]} ∅ example_self = Raise KeyError.
Proof.
  apply (sum_sets_key_error {["g" := 1]} ∅ example_self).
  exists "g"%string. split; [by eexists|reflexivity].
Defined.

Lemma saline_temperature_derivatives_witness :
  derivable_pt_lim (fun t => saline_item "g" t 1 0.035) 300
    (saline_item "gt" 300 1 0.035).
Proof.
  exact (proj1 (saline_temperature_derivatives 300 1 0.035 ltac:(lra))).
Defined.

Lemma saline_pressure_derivatives_witness :
  derivable_pt_lim (fun p => saline_item "g" 300 p 0.035) 1
    (1000 * saline_item "gp" 300 1 0.035).
Proof.
  exact (proj1 (saline_pressure_derivatives 300 1 0.035 ltac:(lra))).
Defined.

Lemma saline_salinity_derivatives_witness :
  derivable_pt_lim (fun s => saline_item "g" 300 1 s) 0.035
    (saline_item "gs" 300 1 0.035).
Proof.
  exact (proj1 (saline_salinity_derivatives 300 1 0.035 ltac:(lra))).
Defined.
